(** * Visiting-card OCR service: text normalisation, entity extraction and
      the [/process] request handlers.

    Shallow embedding of [src/flask_api/main.py] (the base, English-only,
    three-engine variant) and of [src/main.py] (the bilingual, two-engine
    variant).

    - A Python [str] is a list of Unicode code points.
    - The calls into [re] are run by a small backtracking matcher with the
      priorities of Python's engine (leftmost alternative first, greedy
      quantifiers), restricted to the constructs the patterns of the
      program use.
    - The OCR engines are opaque: a record of functions from the content
      of the image file to a value or a raised exception.
    - The request handlers run in a state-and-exception monad over the
      upload directory and a log of engine invocations. *)

From Stdlib Require Import NArith Ascii String Lia.
From stdpp Require Import gmap list.

Local Open Scope N_scope.
Local Open Scope list_scope.

(** ** Code points and strings *)

Definition cp := N.
Definition str := list cp.

Definition chr (a : ascii) : cp := N_of_ascii a.
Coercion chr : ascii >-> cp.

(** An ASCII literal as a Python string. *)
Definition py (s : string) : str := map chr (list_ascii_of_string s).
Arguments py s%_string.

(** [str.isspace] on one code point, which is also what [\s] matches in a
    [str] pattern and what [str.strip()] removes. *)
Definition isspace (c : cp) : bool :=
  (9 <=? c) && (c <=? 13) || (28 <=? c) && (c <=? 31) || (c =? 32)
  || (c =? 0x85) || (c =? 0xA0) || (c =? 0x1680)
  || (0x2000 <=? c) && (c <=? 0x200A)
  || (c =? 0x2028) || (c =? 0x2029) || (c =? 0x202F) || (c =? 0x205F)
  || (c =? 0x3000).

(** The tables of the interpreter's Unicode database beyond ASCII are not
    part of the repository; they are taken as parameters.  On ASCII the
    functions below are fixed by the definitions. *)
Record UnicodeDB := {
  decimal_ext : cp -> bool;   (* category Nd, code points >= 128 *)
  lower_ext : cp -> str       (* full lower-case mapping, code points >= 128 *)
}.

(** What [\d] matches in a [str] pattern. *)
Definition isdecimal (U : UnicodeDB) (c : cp) : bool :=
  (48 <=? c) && (c <=? 57) || (128 <=? c) && decimal_ext U c.

Definition lower_cp (U : UnicodeDB) (c : cp) : str :=
  if c <? 128 then [if (65 <=? c) && (c <=? 90) then c + 32 else c]
  else lower_ext U c.

(** [str.lower()] *)
Definition lower (U : UnicodeDB) (s : str) : str := flat_map (lower_cp U) s.

(** [str.lstrip()], [str.rstrip()], [str.strip()] *)
Fixpoint lstrip (s : str) : str :=
  match s with
  | [] => []
  | c :: s' => if isspace c then lstrip s' else s
  end.

Fixpoint rstrip (s : str) : str :=
  match s with
  | [] => []
  | c :: s' =>
      match rstrip s' with
      | [] => if isspace c then [] else [c]
      | t => c :: t
      end
  end.

Definition strip (s : str) : str := rstrip (lstrip s).

Fixpoint startswith (s p : str) : bool :=
  match p, s with
  | [], _ => true
  | _ :: _, [] => false
  | a :: p', c :: s' => (c =? a) && startswith s' p'
  end.

(** [s.endswith(p)] *)
Definition endswith (s p : str) : bool := startswith (rev s) (rev p).

(** [needle in hay] *)
Fixpoint contains (needle hay : str) : bool :=
  startswith hay needle ||
  match hay with
  | [] => false
  | _ :: hay' => contains needle hay'
  end.

(** [sep.join(xs)] *)
Fixpoint join (sep : str) (xs : list str) : str :=
  match xs with
  | [] => []
  | [x] => x
  | x :: xs' => x ++ sep ++ join sep xs'
  end.

(** ["\n"] *)
Definition nl : str := [10].

(** Truth value of a [str]. *)
Definition truthy (s : str) : bool :=
  match s with [] => false | _ => true end.

(** [list(set(xs))]: the distinct elements of [xs].  The order Python
    gives them in is unspecified; statements about the result are made up
    to order. *)
Definition list_set (xs : list str) : list str := remove_dups xs.

(** ** The fragment of [re] the program uses *)

Module re.

(** One item of a bracketed character set. *)
Inductive citem :=
| CChar (c : cp)
| CRange (lo hi : cp)
| CClass (p : cp -> bool).

(** A character set, [negated] for [[^...]]. *)
Record cset := CSet { negated : bool; items : list citem }.

Definition In_ (l : list citem) : cset := CSet false l.
Definition NotIn (l : list citem) : cset := CSet true l.

Definition in_item (i : citem) (c : cp) : bool :=
  match i with
  | CChar x => c =? x
  | CRange lo hi => (lo <=? c) && (c <=? hi)
  | CClass p => p c
  end.

Definition in_cset (cs : cset) (c : cp) : bool :=
  xorb (negated cs) (existsb (fun i => in_item i c) (items cs)).

(** Patterns: one character of a set, concatenation, alternation and a
    greedy quantifier [{lo,hi}] on a one-character atom ([hi = None] for
    no upper bound). *)
Inductive regex :=
| Eps
| One (cs : cset)
| Cat (r1 r2 : regex)
| Alt (r1 r2 : regex)
| Rep (cs : cset) (lo : nat) (hi : option nat).

Definition Lit1 (c : cp) : regex := One (In_ [CChar c]).

Fixpoint Lit (s : str) : regex :=
  match s with
  | [] => Eps
  | [c] => Lit1 c
  | c :: s' => Cat (Lit1 c) (Lit s')
  end.

Definition room (hi : option nat) : bool :=
  match hi with Some O => false | _ => true end.

Definition less (hi : option nat) : option nat :=
  match hi with Some n => Some (Nat.pred n) | None => None end.

(** Greedy repetition: take one more character when allowed, and fall
    back to stopping here when the rest of the pattern fails after
    that. *)
Fixpoint rep (p : cp -> bool) (lo : nat) (hi : option nat) (s : str)
    (k : str -> option str) : option str :=
  let stop := if Nat.eqb lo 0 then k s else None in
  match s with
  | [] => stop
  | c :: s' =>
      if p c && room hi then
        match rep p (Nat.pred lo) (less hi) s' k with
        | Some out => Some out
        | None => stop
        end
      else stop
  end.

(** [mtch r s k]: match [r] at the start of [s], then continue with [k]
    on what is left; the first success in priority order wins. *)
Fixpoint mtch (r : regex) (s : str) (k : str -> option str) : option str :=
  match r with
  | Eps => k s
  | One cs =>
      match s with
      | c :: s' => if in_cset cs c then k s' else None
      | [] => None
      end
  | Cat r1 r2 => mtch r1 s (fun s1 => mtch r2 s1 k)
  | Alt r1 r2 =>
      match mtch r1 s k with
      | Some out => Some out
      | None => mtch r2 s k
      end
  | Rep cs lo hi => rep (in_cset cs) lo hi s k
  end.

(** The match of [r] that starts at the head of [s], if any. *)
Definition match_at (r : regex) (s : str) : option str :=
  match mtch r s Some with
  | Some rest => Some (take (length s - length rest)%nat s)
  | None => None
  end.

(** The scanner behind [findall], [sub] and [split]: the text from left
    to right as unmatched characters and non-overlapping matches.
    [skip] counts the characters of the current match still to pass. *)
Inductive piece := Gap (c : cp) | Hit (m : str).

Fixpoint scan (r : regex) (s : str) (skip : nat) : list piece :=
  match skip with
  | S n =>
      match s with
      | [] => []
      | _ :: s' => scan r s' n
      end
  | O =>
      match match_at r s with
      | Some m =>
          Hit m ::
          match s with
          | [] => []
          | c :: s' =>
              match m with
              | [] => Gap c :: scan r s' 0
              | _ :: m' => scan r s' (length m')
              end
          end
      | None =>
          match s with
          | [] => []
          | c :: s' => Gap c :: scan r s' 0
          end
      end
  end.

(** [re.findall(r, s)] for a pattern without groups. *)
Definition findall (r : regex) (s : str) : list str :=
  flat_map (fun p => match p with Hit m => [m] | Gap _ => [] end)
           (scan r s 0).

(** [re.sub(r, repl, s)] for a replacement without group references. *)
Definition sub (r : regex) (repl : str) (s : str) : str :=
  flat_map (fun p => match p with Hit _ => repl | Gap c => [c] end)
           (scan r s 0).

Fixpoint split_pieces (ps : list piece) (cur : str) : list str :=
  match ps with
  | [] => [rev cur]
  | Gap c :: ps' => split_pieces ps' (c :: cur)
  | Hit _ :: ps' => rev cur :: split_pieces ps' []
  end.

(** [re.split(r, s)] for a pattern without groups. *)
Definition split (r : regex) (s : str) : list str :=
  split_pieces (scan r s 0) [].

End re.

Import re.
Arguments CChar c%_char.
Arguments CRange (lo hi)%_char.
Arguments Lit1 c%_char.

(** ** Exceptions *)

(** A raised exception: whether its class derives from [Exception] (what
    [except Exception] catches; a bare [except] catches everything) and
    [str(e)]. *)
Record exn := Exn { is_Exception : bool; exn_str : str }.

Definition result (A : Type) : Type := (exn + A)%type.

(** [TypeError] of [re.sub] on an argument that is not a string (the
    wording of the message depends on the interpreter's version). *)
Definition TypeError_not_str : exn :=
  Exn true (py "expected string or bytes-like object").

(** ** The world of a request: upload directory and engine log *)

Definition path := str.
Definition bytes := list N.

(** What the operating system does with a path is not part of the
    repository; it is taken as a parameter.  [realpath p] is the file the
    path text [p] names: texts such as [uploads/x.png] and
    [uploads/./x.png] name one file.  [makedirs_error d] is what
    [os.makedirs(d, exist_ok=True)] raises, if anything.
    [save_error p content] is what writing [content] to [p] raises, if
    anything, together with what the attempt leaves in the file: [None]
    when the file was not opened (a directory that is missing, a path
    that is a directory), [Some part] when the file was opened and the
    writing broke off (a full disk). *)
Record Disk := {
  realpath : path -> path;
  makedirs_error : path -> option exn;
  save_error : path -> bytes -> option (exn * option bytes)
}.

(** [fs]: the files on disk, each under the name [realpath] gives it.
    [calls]: the names of the OCR engines invoked so far, oldest first. *)
Record World := { fs : gmap (list N) bytes; calls : list str }.

(** A computation that reads and changes the world and may raise. *)
Definition M (A : Type) : Type := World -> result A * World.

Definition ret {A} (a : A) : M A := fun w => (inr a, w).

Definition bind {A B} (m : M A) (f : A -> M B) : M B :=
  fun w =>
    match m w with
    | (inr a, w') => f a w'
    | (inl e, w') => (inl e, w')
    end.

Definition lift {A} (r : result A) : M A := fun w => (r, w).

(** [try: m / except: h] *)
Definition try_except {A} (m : M A) (h : exn -> M A) : M A :=
  fun w =>
    match m w with
    | (inl e, w') => h e w'
    | out => out
    end.

(** [try: m / except Exception as e: h e] *)
Definition try_except_Exception {A} (m : M A) (h : exn -> M A) : M A :=
  fun w =>
    match m w with
    | (inl e, w') => if is_Exception e then h e w' else (inl e, w')
    | out => out
    end.

Notation "x <- m ;; k" := (bind m (fun x => k))
  (at level 100, m at next level, right associativity).
Notation "m ;;; k" := (bind m (fun _ => k))
  (at level 100, right associativity).

Definition FileNotFoundError (p : path) : exn :=
  Exn true (py "[Errno 2] No such file or directory: '" ++ p ++ py "'").

(** [os.makedirs(d, exist_ok=True)] *)
Definition os_makedirs (D : Disk) (d : path) : M unit :=
  fun w =>
    match makedirs_error D d with
    | Some e => (inl e, w)
    | None => (inr tt, w)
    end.

(** What is on disk once the writing of the file [file] has broken
    off. *)
Definition broken_off (file : path) (remains : option bytes) (w : World) : World :=
  match remains with
  | Some part => {| fs := <[file := part]> (fs w); calls := calls w |}
  | None => w
  end.

(** [image_file.save(p)]: the file is written, replacing what was there,
    or the error is raised. *)
Definition save (D : Disk) (p : path) (content : bytes) : M unit :=
  fun w =>
    match save_error D p content with
    | Some (e, remains) => (inl e, broken_off (realpath D p) remains w)
    | None =>
        (inr tt,
         {| fs := <[realpath D p := content]> (fs w); calls := calls w |})
    end.

(** [os.remove(p)] *)
Definition os_remove (D : Disk) (p : path) : M unit :=
  fun w =>
    match fs w !! realpath D p with
    | Some _ =>
        (inr tt, {| fs := delete (realpath D p) (fs w); calls := calls w |})
    | None => (inl (FileNotFoundError p), w)
    end.

(** Run an engine on the file at [p], logging the invocation. *)
Definition invoke {A} (D : Disk) (name : str)
    (engine : option bytes -> result A) (p : path) : M A :=
  fun w => (engine (fs w !! realpath D p),
            {| fs := fs w; calls := calls w ++ [name] |}).

(** [os.path.join(a, b)] (POSIX) *)
Definition os_path_join (a b : str) : str :=
  if startswith b (py "/") then b
  else if negb (truthy a) || endswith a (py "/") then a ++ b
  else a ++ py "/" ++ b.

(** ** Requests and responses *)

(** An uploaded file.  Its truth value is that of its file name. *)
Record FileStorage := { filename : str; stream : bytes }.

Record Request := {
  form_text : option str;              (* request.form['text'] *)
  files_image : option FileStorage     (* request.files['image'] *)
}.

Definition file_truthy (f : option FileStorage) : bool :=
  match f with Some f => truthy (filename f) | None => false end.

Record EngineResult := { raw : str; cleaned : str }.

Record Extracted := {
  emails : list str; phones : list str;
  addresses : list str; numbers : list str
}.

(** The JSON documents the handlers return; a dict is the list of its
    items in insertion order. *)
Inductive Json :=
| JError (error : str)
| JCard (ocr_results : list (str * EngineResult))
        (combined_cleaned_text : str) (extracted : Extracted)
| JDocument (ocr_results : list (str * EngineResult)) (combined_text : str).

Record Response := { status : N; json : Json }.

(** ** The OCR engines *)

(** The engines are opaque.  Each maps the content of the file at the
    path it is given ([None] when there is no such file) to what it
    returns or raises.  The record also carries the disk of the machine
    the engines and the handlers run on. *)
Record Engines (bbox conf mat : Type) := {
  (* easy_reader.readtext(path): (box, text, confidence) per line *)
  easy_readtext : option bytes -> result (list (bbox * str * conf));
  (* cv2.imread(path): None when the image cannot be read *)
  cv2_imread : option bytes -> option mat;
  (* pytesseract.image_to_string(image, config=...) *)
  image_to_string : option str -> option mat -> result str;
  (* paddle_ocr.ocr(path): per block None or its lines [box, (text, conf)] *)
  paddle_ocr : option bytes -> result (list (option (list (bbox * (str * conf)))));
  (* the operating system's side of makedirs, save, remove and reads *)
  disk : Disk
}.
Arguments disk {bbox conf mat}.
Arguments easy_readtext {bbox conf mat}.
Arguments cv2_imread {bbox conf mat}.
Arguments image_to_string {bbox conf mat}.
Arguments paddle_ocr {bbox conf mat}.

(** Iterating over [None]. *)
Definition TypeError_not_iterable : exn :=
  Exn true (py "'NoneType' object is not iterable").

(** ** Calls into the engines *)

Section engine_calls.

Context {bbox conf mat : Type}.
Variable E : Engines bbox conf mat.

(** [cv2.imread(image_path)] *)
Definition imread (p : path) : M (option mat) :=
  fun w => (inr (cv2_imread E (fs w !! realpath (disk E) p)), w).

(** [pytesseract.image_to_string(image, config=config)] *)
Definition tesseract (config : option str) (image : option mat) : M str :=
  fun w => (image_to_string E config image,
            {| fs := fs w; calls := calls w ++ [py "tesseract"] |}).

(** [easy_reader.readtext(image_path)] *)
Definition readtext (p : path) : M (list (bbox * str * conf)) :=
  invoke (disk E) (py "easyocr") (easy_readtext E) p.

(** [paddle_ocr.ocr(image_path)] *)
Definition paddle (p : path)
    : M (list (option (list (bbox * (str * conf))))) :=
  invoke (disk E) (py "paddleocr") (paddle_ocr E) p.

(** [[line[1][0] for block in result for line in block]]: iterating over
    a block that is [None] raises. *)
Fixpoint paddle_texts (res : list (option (list (bbox * (str * conf)))))
    : result (list str) :=
  match res with
  | [] => inr []
  | None :: _ => inl TypeError_not_iterable
  | Some block :: rest =>
      match paddle_texts rest with
      | inr texts => inr (map (fun line => fst (snd line)) block ++ texts)
      | inl e => inl e
      end
  end.

End engine_calls.

(** ** Base variant, [src/flask_api/main.py] *)

Module Base.

(** [[^A-Za-z0-9\s\.\,\-\(\)\/@:+]] *)
Definition not_allowed : cset :=
  NotIn [CRange "A" "Z"; CRange "a" "z"; CRange "0" "9"; CClass isspace;
         CChar "."; CChar ","; CChar "-"; CChar "("; CChar ")";
         CChar "/"; CChar "@"; CChar ":"; CChar "+"].

Definition clean_text_regex (text : option str) : result str :=
  match text with
  | None | Some [] => inr []
  | Some text =>
      let text := sub (One not_allowed) (py " ") text in
      let text := sub (Rep (In_ [CClass isspace]) 1 None) (py " ") text in
      inr (strip text)
  end.

(** [[a-zA-Z0-9._%+-]+@[a-zA-Z0-9.-]+\.[a-zA-Z]{2,}] *)
Definition email_pattern : regex :=
  Cat (Rep (In_ [CRange "a" "z"; CRange "A" "Z"; CRange "0" "9";
                 CChar "."; CChar "_"; CChar "%"; CChar "+"; CChar "-"])
           1 None)
 (Cat (Lit1 "@")
 (Cat (Rep (In_ [CRange "a" "z"; CRange "A" "Z"; CRange "0" "9";
                 CChar "."; CChar "-"]) 1 None)
 (Cat (Lit1 ".")
      (Rep (In_ [CRange "a" "z"; CRange "A" "Z"]) 2 None)))).

Definition extract_emails (text : str) : list str :=
  list_set (findall email_pattern text).

(** [(?:\+880|\+88|01|\+?\d{1,3})[\s\-]?\d{8,11}] *)
Definition phone_pattern (U : UnicodeDB) : regex :=
  Cat (Alt (Lit (py "+880"))
      (Alt (Lit (py "+88"))
      (Alt (Lit (py "01"))
           (Cat (Rep (In_ [CChar "+"]) 0 (Some 1%nat))
                (Rep (In_ [CClass (isdecimal U)]) 1 (Some 3%nat))))))
 (Cat (Rep (In_ [CClass isspace; CChar "-"]) 0 (Some 1%nat))
      (Rep (In_ [CClass (isdecimal U)]) 8 (Some 11%nat))).

Definition extract_phones (U : UnicodeDB) (text : str) : list str :=
  list_set (findall (phone_pattern U) text).

Definition address_keywords : list str :=
  [py "road"; py "rd"; py "street"; py "st"; py "avenue"; py "ave";
   py "house"; py "floor"; py "level"; py "block"; py "sector";
   py "dhaka"; py "bangladesh"; py "city"; py "tower"; py "building"].

(** The inner [for key in address_keywords: if ...: append; break]:
    whether some keyword makes the line an address. *)
Definition is_address (U : UnicodeDB) (line : str) : bool :=
  existsb (fun key => contains (lower U key) (lower U line)
                      && (10 <? length line)%nat)
          address_keywords.

Definition extract_addresses (U : UnicodeDB) (text : str) : list str :=
  let lines := split (One (In_ [CChar ","; CChar "."])) text in
  let addresses :=
    flat_map (fun line => if is_address U line then [strip line] else [])
             lines in
  list_set addresses.

(** [\d+] *)
Definition extract_numbers (U : UnicodeDB) (text : str) : list str :=
  list_set (findall (Rep (In_ [CClass (isdecimal U)]) 1 None) text).

Section app.

Context {bbox conf mat : Type}.
Variable E : Engines bbox conf mat.
Variable U : UnicodeDB.

Definition ocr_with_tesseract (image_path : path) : M str :=
  try_except
    (image <- imread E image_path ;;
     tesseract E None image)
    (fun _ => ret []).

Definition ocr_with_paddle (image_path : path) : M str :=
  try_except
    (res <- paddle E image_path ;;
     texts <- lift (paddle_texts res) ;;
     ret (join nl texts))
    (fun _ => ret []).

Definition allowed_extensions : list str :=
  [py ".png"; py ".jpg"; py ".jpeg"; py ".bmp"].

Definition no_input : Response :=
  {| status := 400;
     json := JError (py "No input provided. Submit an image or text.") |}.

Definition invalid_file_type : Response :=
  {| status := 400; json := JError (py "Invalid file type") |}.

Definition ocr_failed (e : exn) : Response :=
  {| status := 500; json := JError (py "OCR failed: " ++ exn_str e) |}.

(** The body of the [try] of the image branch. *)
Definition run_engines (image_path : path)
    : M (list (str * EngineResult) * str) :=
  dets <- readtext E image_path ;;
  let easy_raw := join nl (map (fun t => snd (fst t)) dets) in
  tesseract_raw <- ocr_with_tesseract image_path ;;
  paddle_raw <- ocr_with_paddle image_path ;;
  easy_clean <- lift (clean_text_regex (Some easy_raw)) ;;
  tesseract_clean <- lift (clean_text_regex (Some tesseract_raw)) ;;
  paddle_clean <- lift (clean_text_regex (Some paddle_raw)) ;;
  let ocr_results :=
    [(py "easyocr", {| raw := easy_raw; cleaned := easy_clean |});
     (py "tesseract", {| raw := tesseract_raw; cleaned := tesseract_clean |});
     (py "paddleocr", {| raw := paddle_raw; cleaned := paddle_clean |})] in
  let combined_text :=
    easy_clean ++ py " " ++ tesseract_clean ++ py " " ++ paddle_clean in
  os_remove (disk E) image_path ;;;
  ret (ocr_results, combined_text).

(** [if image_file: ... else: combined_text = ""]: an early response, or
    [ocr_results] and [combined_text]. *)
Definition image_branch (image_file : option FileStorage)
    : M (Response + list (str * EngineResult) * str) :=
  match image_file with
  | Some f =>
      if truthy (filename f) then
        if negb (existsb (endswith (lower U (filename f))) allowed_extensions)
        then ret (inl invalid_file_type)
        else
          os_makedirs (disk E) (py "uploads") ;;;
          let image_path := os_path_join (py "uploads") (filename f) in
          save (disk E) image_path (stream f) ;;;
          try_except_Exception
            (out <- run_engines image_path ;; ret (inr out))
            (fun e => ret (inl (ocr_failed e)))
      else ret (inr ([], []))
  | None => ret (inr ([], []))
  end.

Definition process_visiting_card (request : Request) : M Response :=
  let text_input := strip (default [] (form_text request)) in
  let image_file := files_image request in
  if negb (truthy text_input) && negb (file_truthy image_file) then
    ret no_input
  else
    branch <- image_branch image_file ;;
    match branch with
    | inl response => ret response
    | inr (ocr_results, combined_text) =>
        combined_text <-
          (if truthy text_input then
             cleaned_text_input <- lift (clean_text_regex (Some text_input)) ;;
             ret (strip (combined_text ++ py " " ++ cleaned_text_input))
           else ret combined_text) ;;
        combined_text <- lift (clean_text_regex (Some combined_text)) ;;
        ret {| status := 200;
               json := JCard ocr_results combined_text
                 {| emails := extract_emails combined_text;
                    phones := extract_phones U combined_text;
                    addresses := extract_addresses U combined_text;
                    numbers := extract_numbers U combined_text |} |}
    end.

End app.

End Base.

(** ** Bilingual variant, [src/main.py] *)

Module Bilingual.

(** [[^\u0980-\u09FFa-zA-Z0-9\s\.\,\-\(\)\/@:+<>]] *)
Definition not_allowed : cset :=
  NotIn [CRange 0x0980 0x09FF; CRange "a" "z"; CRange "A" "Z";
         CRange "0" "9"; CClass isspace;
         CChar "."; CChar ","; CChar "-"; CChar "("; CChar ")";
         CChar "/"; CChar "@"; CChar ":"; CChar "+"; CChar "<"; CChar ">"].

(** No guard on the argument: [re.sub] raises [TypeError] on [None]. *)
Definition clean_text_regex (text : option str) : result str :=
  match text with
  | None => inl TypeError_not_str
  | Some text =>
      let text := sub (One not_allowed) (py " ") text in
      let text := sub (Rep (In_ [CClass isspace]) 1 None) (py " ") text in
      inr (strip text)
  end.

Section app.

Context {bbox conf mat : Type}.
Variable E : Engines bbox conf mat.

(** No [try] around the engine: what it raises goes to the caller. *)
Definition ocr_with_tesseract (image_path : path) : M str :=
  image <- imread E image_path ;;
  let custom_config := py "--oem 3 --psm 6 -l eng+ben" in
  tesseract E (Some custom_config) image.

Definition image_required : Response :=
  {| status := 400; json := JError (py "Image is required") |}.

Definition process_document (request : Request) : M Response :=
  let image_file := files_image request in
  match image_file with
  | Some f =>
      if truthy (filename f) then
        os_makedirs (disk E) (py "uploads") ;;;
        let image_path := os_path_join (py "uploads") (filename f) in
        save (disk E) image_path (stream f) ;;;
        dets <- readtext E image_path ;;
        let easy_raw := join nl (map (fun t => snd (fst t)) dets) in
        tess_raw <- ocr_with_tesseract image_path ;;
        easy_clean <- lift (clean_text_regex (Some easy_raw)) ;;
        tess_clean <- lift (clean_text_regex (Some tess_raw)) ;;
        combined_text <-
          lift (clean_text_regex (Some (easy_clean ++ py " " ++ tess_clean))) ;;
        os_remove (disk E) image_path ;;;
        ret {| status := 200;
               json := JDocument
                 [(py "easyocr", {| raw := easy_raw; cleaned := easy_clean |});
                  (py "tesseract", {| raw := tess_raw; cleaned := tess_clean |})]
                 combined_text |}
      else ret image_required
  | None => ret image_required
  end.

End app.

End Bilingual.

(** ** Notions used in the statements *)

Definition is_letter (c : cp) : bool :=
  (65 <=? c) && (c <=? 90) || (97 <=? c) && (c <=? 122).

Definition is_digit (c : cp) : bool := (48 <=? c) && (c <=? 57).

Definition is_bangla (c : cp) : bool := (0x0980 <=? c) && (c <=? 0x09FF).

(** Letters, digits and [. , - ( ) / @ : +]. *)
Definition allowed_english (c : cp) : bool :=
  is_letter c || is_digit c
  || existsb (N.eqb c) [chr "."; chr ","; chr "-"; chr "("; chr ")";
                        chr "/"; chr "@"; chr ":"; chr "+"].

(** The above, the Bangla block and [< >]. *)
Definition allowed_bilingual (c : cp) : bool :=
  allowed_english c || is_bangla c || (c =? chr "<") || (c =? chr ">").

(** An output of the normaliser, as the specification describes it: only
    allowed characters and ASCII spaces, no two whitespace characters in a
    row, no whitespace at either end. *)
Definition canonical (allowed : cp -> bool) (out : str) : Prop :=
  Forall (fun c => allowed c = true \/ c = chr " ") out
  /\ (forall (i : nat) a b, out !! i = Some a -> out !! S i = Some b ->
        ~ (isspace a = true /\ isspace b = true))
  /\ (forall c, head out = Some c -> isspace c = false)
  /\ (forall c, last out = Some c -> isspace c = false).

(** Length of the longest prefix of [s] whose characters satisfy [p]. *)
Fixpoint run (p : cp -> bool) (s : str) : nat :=
  match s with
  | c :: s' => if p c then S (run p s') else O
  | [] => O
  end.

(** [\s+] *)
Definition ws_plus : regex := Rep (In_ [CClass isspace]) 1 None.

(** The three steps both normalisers share, for a set [cs] of characters
    to blank out. *)
Definition normalise (cs : cset) (text : str) : str :=
  strip (sub ws_plus (py " ") (sub (One cs) (py " ") text)).

(** The head of a string is not whitespace. *)
Definition head_ok (s : str) : bool :=
  match s with [] => true | d :: _ => negb (isspace d) end.

(** Every whitespace character is followed by a character that is not
    whitespace, or ends the string. *)
Fixpoint squeezed (s : str) : bool :=
  match s with
  | [] => true
  | c :: s' => (negb (isspace c) || head_ok s') && squeezed s'
  end.

(** Only visible characters and the ASCII space. *)
Definition clean_chars (vis : cp -> bool) (s : str) : Prop :=
  Forall (fun c => vis c = true \/ c = 32) s.

(** ** Sample Unicode tables, engines and requests *)

(** Tables with nothing beyond ASCII. *)
Definition ascii_db : UnicodeDB :=
  {| decimal_ext := fun _ => false; lower_ext := fun c => [c] |}.

Definition corrupt_image : exn := Exn true (py "corrupt image").

(** A disk on which every path text names a file of its own and nothing
    is refused, as for plain file names in an upload directory that can
    be written. *)
Definition plain_disk : Disk :=
  {| realpath := fun p => p;
     makedirs_error := fun _ => None;
     save_error := fun _ _ => None |}.

(** EasyOCR raises on every image; the other two engines read text. *)
Definition engines_easy_fails : Engines unit unit bytes :=
  {| easy_readtext := fun _ => inl corrupt_image;
     cv2_imread := fun f => f;
     image_to_string := fun _ _ => inr (py "ACME Ltd");
     paddle_ocr := fun _ => inr [Some [(tt, (py "x@y.com", tt))]];
     disk := plain_disk |}.

(** EasyOCR reads two lines; Tesseract raises and Paddle finds nothing
    (its result is a block that is [None]). *)
Definition engines_others_fail : Engines unit unit bytes :=
  {| easy_readtext := fun _ =>
       inr [(tt, py "ACME Ltd", tt); (tt, py "12 Lake Road, Dhaka", tt)];
     cv2_imread := fun _ => None;
     image_to_string := fun _ _ => inl corrupt_image;
     paddle_ocr := fun _ => inr [None];
     disk := plain_disk |}.

Definition card_png : FileStorage :=
  {| filename := py "Card.PNG"; stream := [137; 80; 78; 71] |}.

Definition empty_world : World := {| fs := ∅; calls := [] |}.

Definition card_request : Request :=
  {| form_text := None; files_image := Some card_png |}.

Definition text_request (text : str) : Request :=
  {| form_text := Some text; files_image := None |}.

Definition empty_request : Request :=
  {| form_text := None; files_image := None |}.

Definition gulshan_input : str :=
  py "123 Gulshan Road, Dhaka, Bangladesh, short".

(** What an adapter of the base variant hands back for an outcome of its
    engine: the text, or the empty string when the engine raised. *)
Definition raw_or_empty (r : result str) : str :=
  match r with inr s => s | inl _ => [] end.

(** The same for Paddle, whose result is flattened first. *)
Definition paddle_raw {bbox conf : Type}
    (r : result (list (option (list (bbox * (str * conf)))))) : str :=
  match r with
  | inr res => raw_or_empty
                 (match paddle_texts res with
                  | inr texts => inr (join nl texts)
                  | inl e => inl e
                  end)
  | inl _ => []
  end.

(** The world after a request whose three engines ran on the upload at
    [p] and whose upload was removed. *)
Definition after_engines (p : path) (w : World) : World :=
  {| fs := delete p (fs w);
     calls := calls w ++ [py "easyocr"; py "tesseract"; py "paddleocr"] |}.

(** ** Further notions: words and blanking *)

(** [re.sub(cs, " ", s)] for a one-character set, character by
    character. *)
Definition blank (cs : cset) (s : str) : str :=
  map (fun c => if in_cset cs c then 32 else c) s.

Definition push_word (w : str) (ws : list str) : list str :=
  match w with [] => ws | _ => w :: ws end.

(** The word that starts at the head of [s] (empty when [s] starts with
    whitespace) and the words after it. *)
Fixpoint split_head (s : str) : str * list str :=
  match s with
  | [] => ([], [])
  | c :: s' =>
      let (w, ws) := split_head s' in
      if isspace c then ([], push_word w ws) else (c :: w, ws)
  end.

(** [s.split()]: the maximal runs of characters that are not
    whitespace. *)
Definition py_split (s : str) : list str :=
  let (w, ws) := split_head s in push_word w ws.

(** ** Further notions: the strings a pattern matches *)

Definition within (hi : option nat) (n : nat) : Prop :=
  match hi with Some h => (n <= h)%nat | None => True end.

(** [matches r m]: the pattern [r] matches the whole of [m]. *)
Inductive matches : regex -> str -> Prop :=
| matches_Eps : matches Eps []
| matches_One cs c : in_cset cs c = true -> matches (One cs) [c]
| matches_Cat r1 r2 m1 m2 :
    matches r1 m1 -> matches r2 m2 -> matches (Cat r1 r2) (m1 ++ m2)
| matches_Alt_l r1 r2 m : matches r1 m -> matches (Alt r1 r2) m
| matches_Alt_r r1 r2 m : matches r2 m -> matches (Alt r1 r2) m
| matches_Rep cs lo hi m :
    Forall (fun c => in_cset cs c = true) m ->
    (lo <= length m)%nat -> within hi (length m) ->
    matches (Rep cs lo hi) m.

(** [m] occurs in [s] as a contiguous piece. *)
Definition occurs_in (m s : str) : Prop := exists pre post, s = pre ++ m ++ post.

(** The characters of the local part and of the domain of an e-mail
    address, as the pattern of [extract_emails] has them. *)
Definition email_local_char (c : cp) : bool :=
  is_letter c || is_digit c
  || existsb (N.eqb c) [chr "."; chr "_"; chr "%"; chr "+"; chr "-"].

Definition email_domain_char (c : cp) : bool :=
  is_letter c || is_digit c || existsb (N.eqb c) [chr "."; chr "-"].

(** ** Further notions: the answers of the base handler *)

(** The status 200 answer of the base variant for given engine results
    and combined text. *)
Definition card_response (U : UnicodeDB)
    (ocr_results : list (str * EngineResult)) (combined : str) : Response :=
  {| status := 200;
     json := JCard ocr_results combined
       {| emails := Base.extract_emails combined;
          phones := Base.extract_phones U combined;
          addresses := Base.extract_addresses U combined;
          numbers := Base.extract_numbers U combined |} |}.

(** The world after an upload was saved at [p] and EasyOCR was invoked and
    raised. *)
Definition after_easyocr_raised (p : path) (content : bytes) (w : World)
    : World :=
  {| fs := <[p := content]> (fs w); calls := calls w ++ [py "easyocr"] |}.

(** ** Further sample requests *)

(** A text field and an upload without a file name. *)
Definition nameless_upload_request : Request :=
  {| form_text := Some (py "Call 01712345678");
     files_image := Some {| filename := []; stream := [1; 2; 3] |} |}.

Definition notes_txt : FileStorage :=
  {| filename := py "notes.txt"; stream := [104; 105] |}.

(** A disk on which [uploads/Card.PNG] and another file exist already. *)
Definition busy_world : World :=
  {| fs := <[py "uploads/Card.PNG" := [0]]> (<[py "uploads/other.png" := [7]]> ∅);
     calls := [] |}.

(** ** Further notions: Paddle's blocks and the bilingual handler *)

(** The texts of the lines of the blocks of a Paddle result, block after
    block. *)
Definition block_texts {bbox conf : Type}
    (res : list (option (list (bbox * (str * conf))))) : list str :=
  flat_map (fun b => match b with
                     | Some block => map (fun line => fst (snd line)) block
                     | None => []
                     end) res.

Definition has_none {A : Type} (res : list (option A)) : bool :=
  existsb (fun b => match b with None => true | Some _ => false end) res.

(** The world of the bilingual handler after an upload was saved at [p]
    and the engines named [names] were invoked. *)
Definition after_saved (p : path) (content : bytes) (names : list str)
    (w : World) : World :=
  {| fs := <[p := content]> (fs w); calls := calls w ++ names |}.

(** Paddle reads two blocks of lines. *)
Definition engines_paddle_blocks : Engines unit unit bytes :=
  {| easy_readtext := fun _ => inr [];
     cv2_imread := fun f => f;
     image_to_string := fun _ _ => inr (py "Tel 01712345678");
     paddle_ocr := fun _ =>
       inr [Some [(tt, (py "ACME Ltd", tt)); (tt, (py "Dhaka", tt))];
            Some [(tt, (py "x@y.com", tt))]];
     disk := plain_disk |}.

(** ** Sample disks *)

(** A disk without the directory [uploads/sub]: writing below it raises. *)
Definition disk_without_sub : Disk :=
  {| realpath := fun p => p;
     makedirs_error := fun _ => None;
     save_error := fun p _ =>
       if startswith p (py "uploads/sub/")
       then Some (FileNotFoundError p, None)
       else None |}.

Definition engines_without_sub : Engines unit unit bytes :=
  {| easy_readtext := fun _ => inr [(tt, py "ACME Ltd", tt)];
     cv2_imread := fun f => f;
     image_to_string := fun _ _ => inr (py "ACME Ltd");
     paddle_ocr := fun _ => inr [];
     disk := disk_without_sub |}.

Definition sub_x_png : FileStorage :=
  {| filename := py "sub/x.png"; stream := [137; 80] |}.




(** ** Facts about the matcher *)

Lemma match_at_One cs s :
  match_at (One cs) s =
    match s with
    | c :: _ => if in_cset cs c then Some [c] else None
    | [] => None
    end.
Proof.
  unfold match_at; destruct s as [|c s']; simpl; [done|].
  destruct (in_cset cs c); [|done].
  by replace (S (length s') - length s')%nat with 1%nat by lia.
Qed.

Lemma sub_One cs repl s :
  sub (One cs) repl s =
    flat_map (fun c => if in_cset cs c then repl else [c]) s.
Proof.
  unfold sub. induction s as [|c s' IH].
  - by cbn.
  - cbn [scan]. rewrite match_at_One.
    cbn [flat_map]. destruct (in_cset cs c); cbn [flat_map length]; by rewrite IH.
Qed.

Lemma run_le p s : (run p s <= length s)%nat.
Proof. induction s as [|c s' IH]; simpl; [lia|]. destruct (p c); simpl; lia. Qed.

(** With nothing after it, an unbounded greedy quantifier takes the
    whole run, and fails when the run is shorter than [lo]. *)
Lemma rep_unbounded p s : forall lo,
  rep p lo None s Some =
    if (lo <=? run p s)%nat then Some (drop (run p s) s) else None.
Proof.
  induction s as [|c s' IH]; intros lo; simpl.
  - by destruct lo.
  - destruct (p c); simpl.
    + rewrite IH. destruct lo as [|lo]; simpl.
      * done.
      * destruct (lo <=? run p s')%nat; done.
    + by destruct lo.
Qed.

Lemma match_at_Rep cs lo s :
  match_at (Rep cs lo None) s =
    if (lo <=? run (in_cset cs) s)%nat
    then Some (take (run (in_cset cs) s) s) else None.
Proof.
  unfold match_at; simpl. rewrite rep_unbounded.
  destruct (lo <=? _)%nat; [|done].
  rewrite length_drop. pose proof (run_le (in_cset cs) s).
  by replace (length s - (length s - run (in_cset cs) s))%nat
    with (run (in_cset cs) s) by lia.
Qed.

Lemma scan_skip r s : forall n,
  (n <= length s)%nat -> scan r s n = scan r (drop n s) 0.
Proof.
  induction s as [|c s' IH]; intros [|n] Hn; simpl in *; try done; try lia.
  apply IH; lia.
Qed.

(** ** Facts about whitespace, [strip] and the two [re.sub] passes *)

Lemma in_cset_ws c : in_cset (In_ [CClass isspace]) c = isspace c.
Proof. unfold in_cset; simpl. by rewrite orb_false_r. Qed.

Lemma run_ws_lstrip s : drop (run isspace s) s = lstrip s.
Proof. induction s as [|c s' IH]; simpl; [done|]. by destruct (isspace c). Qed.

Lemma run_ext p q s : (forall c, p c = q c) -> run p s = run q s.
Proof. intros E; induction s as [|c s' IH]; simpl; [done|]. by rewrite E, IH. Qed.

Lemma sub_ws_nil : sub ws_plus (py " ") [] = [].
Proof. reflexivity. Qed.

Lemma sub_ws_cons c s :
  sub ws_plus (py " ") (c :: s) =
    if isspace c then 32 :: sub ws_plus (py " ") (lstrip s)
    else c :: sub ws_plus (py " ") s.
Proof.
  unfold sub, ws_plus. cbn [scan]. rewrite match_at_Rep.
  rewrite (run_ext _ _ _ in_cset_ws). simpl run.
  destruct (isspace c) eqn:Hc; simpl.
  - rewrite length_take, (Nat.min_l _ _ (run_le isspace s)).
    rewrite scan_skip by apply run_le. by rewrite run_ws_lstrip.
  - done.
Qed.

Lemma length_lstrip s : (length (lstrip s) <= length s)%nat.
Proof. induction s as [|c s' IH]; simpl; [lia|]. destruct (isspace c); simpl; lia. Qed.

Lemma head_ok_lstrip s : head_ok (lstrip s) = true.
Proof.
  induction s as [|c s' IH]; simpl; [done|].
  destruct (isspace c) eqn:Hc; simpl; [done|]. by rewrite Hc.
Qed.

Lemma lstrip_head_ok s : head_ok s = true -> lstrip s = s.
Proof. destruct s as [|c s']; simpl; [done|]. by destruct (isspace c). Qed.

Lemma rstrip_last s c : last (rstrip s) = Some c -> isspace c = false.
Proof.
  induction s as [|a s' IH]; simpl; [done|].
  destruct (rstrip s') as [|d t] eqn:E.
  - destruct (isspace a) eqn:Ha; simpl; [done|]. by intros [= <-].
  - simpl. exact IH.
Qed.

Lemma rstrip_fix s :
  (forall c, last s = Some c -> isspace c = false) -> rstrip s = s.
Proof.
  induction s as [|a s' IH]; simpl; [done|]. intros H.
  destruct s' as [|b s''].
  - simpl. by rewrite (H a eq_refl).
  - rewrite IH by (intros c Hc; apply H; exact Hc). done.
Qed.

Lemma rstrip_idem s : rstrip (rstrip s) = rstrip s.
Proof. apply rstrip_fix, rstrip_last. Qed.

Lemma head_ok_rstrip s : head_ok s = true -> head_ok (rstrip s) = true.
Proof.
  destruct s as [|c s']; simpl; [done|]. intros Hc.
  destruct (rstrip s'); simpl; [|done].
  destruct (isspace c) eqn:E; simpl; [done|]. by rewrite E.
Qed.

Lemma strip_idem s : strip (strip s) = strip s.
Proof.
  unfold strip.
  rewrite (lstrip_head_ok (rstrip (lstrip s))).
  - apply rstrip_idem.
  - apply head_ok_rstrip, head_ok_lstrip.
Qed.

Lemma strip_head s c : head (strip s) = Some c -> isspace c = false.
Proof.
  pose proof (head_ok_rstrip _ (head_ok_lstrip s)) as H. fold (strip s) in H.
  destruct (strip s) as [|d t]; simpl in *; [done|].
  intros [= <-]. by apply negb_true_iff.
Qed.

Lemma strip_last s c : last (strip s) = Some c -> isspace c = false.
Proof. apply rstrip_last. Qed.

Lemma lstrip_suffix s : exists l, s = l ++ lstrip s.
Proof.
  induction s as [|c s' [l IH]]; simpl; [by exists []|].
  destruct (isspace c); [|by exists []].
  exists (c :: l). simpl. by rewrite <- IH.
Qed.

Lemma rstrip_prefix s : exists l, s = rstrip s ++ l.
Proof.
  induction s as [|c s' [l IH]]; simpl; [by exists []|].
  destruct (rstrip s') as [|d t] eqn:E.
  - destruct (isspace c).
    + exists (c :: s'). done.
    + exists s'. done.
  - exists l. simpl in *. by rewrite <- IH.
Qed.

Lemma strip_infix s : exists l1 l2, s = l1 ++ strip s ++ l2.
Proof.
  destruct (lstrip_suffix s) as [l1 H1].
  destruct (rstrip_prefix (lstrip s)) as [l2 H2].
  exists l1, l2. unfold strip. by rewrite <- H2.
Qed.

Lemma strip_all_ws s : Forall (fun c => isspace c = true) s -> strip s = [].
Proof.
  intros H. unfold strip.
  assert (lstrip s = []) as ->; [|done].
  induction H as [|c s' Hc _ IH]; simpl; [done|]. by rewrite Hc.
Qed.


(** The normal form the normaliser produces, for a set [cs] that blanks
  out everything but whitespace and the characters [vis] lets through. *)
Section normal_form.

Variable cs : cset.
Variable vis : cp -> bool.
Hypothesis cs_vis : forall c, in_cset cs c = false <-> vis c = true \/ isspace c = true.
Hypothesis vis_not_ws : forall c, vis c = true -> isspace c = false.

Lemma sub_blank_chars s :
  Forall (fun c => vis c = true \/ isspace c = true) (sub (One cs) (py " ") s).
Proof using cs_vis.
  rewrite sub_One. induction s as [|c s' IH]; simpl; [constructor|].
  destruct (in_cset cs c) eqn:E; simpl.
  - constructor; [by right|done].
  - constructor; [by apply cs_vis|done].
Qed.

Lemma head_ok_sub_ws s : head_ok s = true -> head_ok (sub ws_plus (py " ") s) = true.
Proof.
  destruct s as [|c s']; [done|]. rewrite sub_ws_cons. simpl.
  destruct (isspace c) eqn:E; simpl; [done|]. by rewrite E.
Qed.

Lemma sub_ws_squeezed_n n : forall s, (length s <= n)%nat ->
  Forall (fun c => vis c = true \/ isspace c = true) s ->
  clean_chars vis (sub ws_plus (py " ") s)
  /\ squeezed (sub ws_plus (py " ") s) = true.
Proof using vis_not_ws.
  induction n as [|n IH]; intros [|c s'] Hlen Hs; simpl in Hlen;
    try (split; [constructor|done]); try lia.
  rewrite sub_ws_cons. inversion_clear Hs as [|? ? Hc Hs'].
  destruct (isspace c) eqn:E.
  - destruct (lstrip_suffix s') as [l Hl].
    assert (Forall (fun c => vis c = true \/ isspace c = true) (lstrip s')) as Hf.
    { rewrite Hl in Hs'. by apply Forall_app in Hs' as [_ ?]. }
    destruct (IH (lstrip s')) as [H1 H2]; [pose proof (length_lstrip s'); lia|done|].
    split.
    + constructor; [by right|done].
    + simpl. rewrite H2, andb_true_r.
      apply head_ok_sub_ws, head_ok_lstrip.
  - destruct (IH s') as [H1 H2]; [lia|done|].
    split.
    + constructor; [|done]. destruct Hc as [?|Hc]; [by left|congruence].
    + simpl. by rewrite E, H2.
Qed.

Lemma squeezed_tail c s : squeezed (c :: s) = true -> squeezed s = true.
Proof. simpl. by intros [_ ?]%andb_true_iff. Qed.

Lemma squeezed_lstrip s : squeezed s = true -> squeezed (lstrip s) = true.
Proof.
  induction s as [|c s' IH]; [done|]. intros H. simpl.
  destruct (isspace c); [|done]. by apply IH, squeezed_tail with c.
Qed.

Lemma squeezed_rstrip s : squeezed s = true -> squeezed (rstrip s) = true.
Proof.
  induction s as [|c s' IH]; [done|]. simpl.
  intros [Hc Hs]%andb_true_iff. specialize (IH Hs).
  destruct (rstrip s') as [|d t] eqn:E.
  - destruct (isspace c); simpl; [done|]. by rewrite orb_true_r.
  - change (squeezed (c :: d :: t)) with
      ((negb (isspace c) || head_ok (d :: t)) && squeezed (d :: t)).
    rewrite IH, andb_true_r.
    destruct s' as [|d' t']; [done|].
    assert (d' = d) as ->; [|done].
    destruct (rstrip_prefix (d' :: t')) as [l Hl]. rewrite E in Hl.
    by injection Hl.
Qed.

Lemma clean_chars_strip s : clean_chars vis s -> clean_chars vis (strip s).
Proof.
  unfold clean_chars. intros H.
  destruct (strip_infix s) as (l1 & l2 & E). rewrite E in H.
  apply Forall_app in H as [_ H]. by apply Forall_app in H as [H _].
Qed.

(** What [normalise] returns: visible characters and single ASCII
    spaces, squeezed, trimmed at both ends. *)
Theorem normalise_normal s :
  clean_chars vis (normalise cs s)
  /\ squeezed (normalise cs s) = true
  /\ strip (normalise cs s) = normalise cs s.
Proof using cs_vis vis_not_ws.
  unfold normalise.
  destruct (sub_ws_squeezed_n _ _ (Nat.le_refl _) (sub_blank_chars s)) as [H1 H2].
  split; [by apply clean_chars_strip|].
  split; [by apply squeezed_rstrip, squeezed_lstrip|].
  apply strip_idem.
Qed.

Lemma sub_One_fix s : clean_chars vis s -> sub (One cs) (py " ") s = s.
Proof using cs_vis.
  rewrite sub_One. induction 1 as [|c s' Hc _ IH]; simpl; [done|].
  assert (in_cset cs c = false) as ->.
  { apply cs_vis. destruct Hc as [?| ->]; [by left|by right]. }
  simpl. by rewrite IH.
Qed.

Lemma sub_ws_fix s :
  clean_chars vis s -> squeezed s = true -> sub ws_plus (py " ") s = s.
Proof using vis_not_ws.
  induction 1 as [|c s' Hc _ IH]; [done|]. simpl.
  intros [Hh Hs]%andb_true_iff. rewrite sub_ws_cons.
  destruct (isspace c) eqn:E; simpl in Hh.
  - rewrite (lstrip_head_ok s' Hh), (IH Hs).
    destruct Hc as [Hc| ->]; [|done].
    apply vis_not_ws in Hc. congruence.
  - by rewrite (IH Hs).
Qed.

(** A string in normal form is left as it is. *)
Theorem normalise_fix s :
  clean_chars vis s -> squeezed s = true -> strip s = s -> normalise cs s = s.
Proof using cs_vis vis_not_ws.
  intros H1 H2 H3. unfold normalise.
  by rewrite (sub_One_fix s H1), (sub_ws_fix s H1 H2).
Qed.

Theorem normalise_idem s : normalise cs (normalise cs s) = normalise cs s.
Proof using cs_vis vis_not_ws.
  destruct (normalise_normal s) as (H1 & H2 & H3). by apply normalise_fix.
Qed.

(** [squeezed], read on positions: no two neighbours are both
    whitespace. *)
Lemma squeezed_no_run s : squeezed s = true ->
  forall (i : nat) a b, s !! i = Some a -> s !! S i = Some b ->
    isspace a = true -> isspace b = true -> False.
Proof.
  induction s as [|c s' IH]; [done|]. simpl.
  intros [Hh Hs]%andb_true_iff [|i] a b Ha Hb Wa Wb; simpl in *.
  - injection Ha as ->. destruct s' as [|d t]; [done|]. simpl in *.
    injection Hb as ->. rewrite Wa, Wb in Hh. done.
  - by apply (IH Hs i a b).
Qed.

End normal_form.

Ltac bool_to_prop :=
  repeat match goal with
  | H : _ |- _ =>
      progress rewrite ?orb_false_r, ?orb_true_iff, ?andb_true_iff, ?orb_false_iff,
        ?andb_false_iff, ?negb_true_iff, ?negb_false_iff,
        ?N.leb_le, ?N.eqb_eq, ?N.leb_gt, ?N.eqb_neq in H
  end;
  rewrite ?orb_false_r, ?orb_true_iff, ?andb_true_iff, ?orb_false_iff,
    ?andb_false_iff, ?negb_true_iff, ?negb_false_iff,
    ?N.leb_le, ?N.eqb_eq, ?N.leb_gt, ?N.eqb_neq.

Ltac chr_values :=
  repeat match goal with
  | |- context [chr ?a] =>
      let v := eval vm_compute in (chr a) in change (chr a) with v
  | H : context [chr ?a] |- _ =>
      let v := eval vm_compute in (chr a) in change (chr a) with v in H
  end.

Lemma base_not_allowed_spec c :
  in_cset Base.not_allowed c = false <->
  allowed_english c = true \/ isspace c = true.
Proof.
  unfold in_cset, Base.not_allowed, NotIn, allowed_english, is_letter, is_digit.
  cbn [negated items]. rewrite xorb_true_l, negb_false_iff.
  cbn [existsb in_item]. chr_values. bool_to_prop. tauto.
Qed.

Lemma bilingual_not_allowed_spec c :
  in_cset Bilingual.not_allowed c = false <->
  allowed_bilingual c = true \/ isspace c = true.
Proof.
  unfold in_cset, Bilingual.not_allowed, NotIn, allowed_bilingual,
    allowed_english, is_letter, is_digit, is_bangla.
  cbn [negated items]. rewrite xorb_true_l, negb_false_iff.
  cbn [existsb in_item]. chr_values. bool_to_prop. tauto.
Qed.

Lemma allowed_bilingual_not_ws c : allowed_bilingual c = true -> isspace c = false.
Proof.
  unfold allowed_bilingual, allowed_english, is_letter, is_digit, is_bangla,
    isspace.
  cbn [existsb]. chr_values.
  intros H. apply not_true_iff_false. intros W. bool_to_prop. lia.
Qed.

Lemma allowed_english_not_ws c : allowed_english c = true -> isspace c = false.
Proof.
  intros H. apply allowed_bilingual_not_ws. unfold allowed_bilingual.
  by rewrite H.
Qed.

Lemma base_clean_normalise s :
  Base.clean_text_regex (Some s) = inr (normalise Base.not_allowed s).
Proof. by destruct s. Qed.

Lemma bilingual_clean_normalise s :
  Bilingual.clean_text_regex (Some s) = inr (normalise Bilingual.not_allowed s).
Proof. done. Qed.

Lemma normalise_canonical cs vis s :
  (forall c, in_cset cs c = false <-> vis c = true \/ isspace c = true) ->
  (forall c, vis c = true -> isspace c = false) ->
  canonical vis (normalise cs s).
Proof.
  intros H1 H2. destruct (normalise_normal cs vis H1 H2 s) as (Hc & Hs & Ht).
  repeat split.
  - exact Hc.
  - intros i a b Ha Hb [Wa Wb]. exact (squeezed_no_run _ Hs i a b Ha Hb Wa Wb).
  - rewrite <- Ht. apply strip_head.
  - rewrite <- Ht. apply strip_last.
Qed.


(** ** The normaliser *)

(** C2: in both variants the normaliser is idempotent: cleaning the
    cleaned form of any string gives that cleaned form again. *)
Theorem clean_text_regex_idempotent (x : str) :
  (exists y, Base.clean_text_regex (Some x) = inr y
             /\ Base.clean_text_regex (Some y) = inr y)
  /\ (exists y, Bilingual.clean_text_regex (Some x) = inr y
                /\ Bilingual.clean_text_regex (Some y) = inr y).
Proof.
  split.
  - exists (normalise Base.not_allowed x).
    rewrite !base_clean_normalise. split; [done|]. f_equal.
    exact (normalise_idem _ _ base_not_allowed_spec allowed_english_not_ws x).
  - exists (normalise Bilingual.not_allowed x).
    rewrite !bilingual_clean_normalise. split; [done|]. f_equal.
    exact (normalise_idem _ _ bilingual_not_allowed_spec
             allowed_bilingual_not_ws x).
Qed.

(** C5: in both variants the cleaned form of any string has only
    characters of the variant's allow-list and ASCII spaces, no two
    whitespace characters in a row, and no whitespace at either end. *)
Theorem clean_text_regex_canonical (T : str) :
  (exists out, Base.clean_text_regex (Some T) = inr out
               /\ canonical allowed_english out)
  /\ (exists out, Bilingual.clean_text_regex (Some T) = inr out
                  /\ canonical allowed_bilingual out).
Proof.
  split.
  - exists (normalise Base.not_allowed T). split; [apply base_clean_normalise|].
    apply normalise_canonical;
      [apply base_not_allowed_spec | apply allowed_english_not_ws].
  - exists (normalise Bilingual.not_allowed T). split; [done|].
    apply normalise_canonical;
      [apply bilingual_not_allowed_spec | apply allowed_bilingual_not_ws].
Qed.

(** C6, as the code has it: the base normaliser returns for every
    argument, and gives the empty string for [None] and for the empty
    string; the bilingual normaliser returns for every string and gives
    the empty string for the empty string, but has no guard for [None],
    on which it raises. *)
Theorem clean_text_regex_total :
  (forall text : option str, exists out, Base.clean_text_regex text = inr out)
  /\ Base.clean_text_regex None = inr []
  /\ Base.clean_text_regex (Some []) = inr []
  /\ (forall text : str, exists out,
        Bilingual.clean_text_regex (Some text) = inr out)
  /\ Bilingual.clean_text_regex (Some []) = inr []
  /\ (exists e, Bilingual.clean_text_regex None = inl e).
Proof.
  repeat split.
  - intros [text|]; [|by exists []].
    rewrite base_clean_normalise. by eexists.
  - intros text. by eexists.
  - by eexists.
Qed.

(** C6 fails as stated: in the bilingual variant an absent input does not
    yield the empty string. *)
Lemma bilingual_clean_none_raises :
  Bilingual.clean_text_regex None <> inr [].
Proof. discriminate. Qed.

(** ** The extractors on the examples of the specification *)

Example extract_emails_case_preserved :
  Permutation
    (Base.extract_emails
       (py "contact me at a.b@example.com or A.B@EXAMPLE.COM"))
    [py "a.b@example.com"; py "A.B@EXAMPLE.COM"].
Proof.
  assert (Base.extract_emails
            (py "contact me at a.b@example.com or A.B@EXAMPLE.COM")
          = [py "a.b@example.com"; py "A.B@EXAMPLE.COM"]) as ->
    by (vm_compute; reflexivity).
  reflexivity.
Qed.

Example extract_phones_both U :
  Permutation (Base.extract_phones U (py "+8801712345678 and 01812345678"))
              [py "+8801712345678"; py "01812345678"].
Proof.
  assert (Base.extract_phones U (py "+8801712345678 and 01812345678")
          = [py "+8801712345678"; py "01812345678"]) as ->
    by (vm_compute; reflexivity).
  reflexivity.
Qed.

Example extract_numbers_dedup U :
  Permutation (Base.extract_numbers U (py "order 42 qty 7 ref 42"))
              [py "42"; py "7"].
Proof.
  assert (Base.extract_numbers U (py "order 42 qty 7 ref 42")
          = [py "7"; py "42"]) as -> by (vm_compute; reflexivity).
  apply Permutation_swap.
Qed.

(** ** The address extractor *)

(** A line fragment qualifies exactly when it is longer than 10
    characters and contains one of the keywords, case-insensitively; the
    extractor yields the stripped qualifying fragments. *)
Lemma extract_addresses_spec U text a :
  In a (Base.extract_addresses U text) <->
  exists line,
    In line (split (One (In_ [CChar ","; CChar "."])) text)
    /\ (10 < length line)%nat
    /\ (exists key, In key Base.address_keywords
                    /\ contains (lower U key) (lower U line) = true)
    /\ a = strip line.
Proof.
  unfold Base.extract_addresses, list_set.
  rewrite <- list_elem_of_In, elem_of_remove_dups, list_elem_of_In, in_flat_map.
  split.
  - intros (line & Hl & Ha). exists line. split; [done|].
    destruct (Base.is_address U line) eqn:E; [|done].
    destruct Ha as [<-|[]].
    apply existsb_exists in E as (key & Hk & [Hc Hn]%andb_true_iff).
    apply Nat.ltb_lt in Hn. eauto 6.
  - intros (line & Hl & Hn & (key & Hk & Hc) & ->). exists line. split; [done|].
    assert (Base.is_address U line = true) as ->; [|by left].
    apply existsb_exists. exists key. split; [done|].
    apply andb_true_iff. split; [done|]. by apply Nat.ltb_lt.
Qed.

(** C3, as the code has it: on ["123 Gulshan Road, Dhaka, Bangladesh,
    short"] the extractor yields the fragments "123 Gulshan Road" and
    "Bangladesh" and nothing else: the fragment " Dhaka" has 6 characters
    and " short" has 6 and no keyword.  A fragment qualifies iff it is
    longer than 10 characters and contains a keyword, in any case. *)
Theorem extract_addresses_gulshan U :
  Permutation (Base.extract_addresses U gulshan_input)
              [py "123 Gulshan Road"; py "Bangladesh"]
  /\ split (One (In_ [CChar ","; CChar "."])) gulshan_input
     = [py "123 Gulshan Road"; py " Dhaka"; py " Bangladesh"; py " short"]
  /\ forall text a,
       In a (Base.extract_addresses U text) <->
       exists line,
         In line (split (One (In_ [CChar ","; CChar "."])) text)
         /\ (10 < length line)%nat
         /\ (exists key, In key Base.address_keywords
                         /\ contains (lower U key) (lower U line) = true)
         /\ a = strip line.
Proof.
  split; [|split].
  - assert (Base.extract_addresses U gulshan_input
            = [py "123 Gulshan Road"; py "Bangladesh"]) as ->
      by (vm_compute; reflexivity).
    reflexivity.
  - vm_compute; reflexivity.
  - intros text a. apply extract_addresses_spec.
Qed.

(** C3 fails as stated: whatever the Unicode tables, no fragment the
    extractor yields on that input contains "Dhaka". *)
Lemma dhaka_fragment_not_extracted :
  ~ exists U a, In a (Base.extract_addresses U gulshan_input)
                /\ contains (py "Dhaka") a = true.
Proof.
  intros (U & a & Ha & Hc).
  assert (Base.extract_addresses U gulshan_input
          = [py "123 Gulshan Road"; py "Bangladesh"]) as E
    by (vm_compute; reflexivity).
  rewrite E in Ha. destruct Ha as [<-|[<-|[]]]; vm_compute in Hc; discriminate.
Qed.

(** ** The [/process] endpoint of the base variant *)

#[local] Arguments Base.clean_text_regex : simpl never.
#[local] Arguments Bilingual.clean_text_regex : simpl never.
#[local] Arguments strip : simpl never.
#[local] Arguments py : simpl never.
#[local] Arguments Base.extract_emails : simpl never.
#[local] Arguments Base.extract_phones : simpl never.
#[local] Arguments Base.extract_addresses : simpl never.
#[local] Arguments Base.extract_numbers : simpl never.

Section process.

Context {bbox conf mat : Type}.
Variable E : Engines bbox conf mat.
Variable U : UnicodeDB.

(** C4: a request with only the text "Email: x@y.com, Phone: 01712345678"
    is answered with status 200, an empty [ocr_results], the cleaned input
    text as [combined_cleaned_text], ["x@y.com"] as the e-mails and the
    phone token among the phones; the world is left as it was. *)
Theorem text_only_request (w : World) :
  let text := py "Email: x@y.com, Phone: 01712345678" in
  exists cleaned extracted,
    Base.clean_text_regex (Some text) = inr cleaned
    /\ Base.process_visiting_card E U (text_request text) w
       = (inr {| status := 200; json := JCard [] cleaned extracted |}, w)
    /\ emails extracted = [py "x@y.com"]
    /\ In (py "01712345678") (phones extracted).
Proof.
  intros text. eexists _, _. split; [|split; [|split]].
  - vm_compute. reflexivity.
  - vm_compute. reflexivity.
  - vm_compute. reflexivity.
  - vm_compute. by left.
Qed.

(** C7: a request with neither an image nor a text field is answered with
    status 400 and an error body, and the world is left as it was: no
    file is written and no engine is invoked. *)
Theorem no_input_rejected (w : World) :
  Base.process_visiting_card E U empty_request w
  = (inr {| status := 400;
            json := JError (py "No input provided. Submit an image or text.") |},
     w).
Proof. reflexivity. Qed.

(** C9: the text is stripped before the check for input, so a request
    without image whose text is all whitespace is answered like a request
    without text: status 400, the same error body, the world as it was. *)
Theorem whitespace_text_rejected (text : str) (w : World) :
  Forall (fun c => isspace c = true) text ->
  Base.process_visiting_card E U (text_request text) w
  = Base.process_visiting_card E U empty_request w
  /\ Base.process_visiting_card E U (text_request text) w
     = (inr Base.no_input, w)
  /\ status Base.no_input = 400.
Proof.
  intros H. unfold Base.process_visiting_card. simpl.
  rewrite (strip_all_ws text H). simpl. done.
Qed.

Lemma lstrip_all_ws s :
  Forall (fun c => isspace c = true) (lstrip s) ->
  Forall (fun c => isspace c = true) s.
Proof.
  induction s as [|c s' IH]; simpl; [done|].
  destruct (isspace c) eqn:Hc; [|done]. intros H. constructor; auto.
Qed.

Lemma rstrip_nil_all_ws s :
  rstrip s = [] -> Forall (fun c => isspace c = true) s.
Proof.
  induction s as [|c s' IH]; simpl; [done|].
  destruct (rstrip s') as [|d t]; [|done].
  destruct (isspace c) eqn:Hc; [|done]. intros _. constructor; auto.
Qed.

Lemma strip_nil_all_ws s :
  strip s = [] -> Forall (fun c => isspace c = true) s.
Proof. intros H. by apply lstrip_all_ws, rstrip_nil_all_ws. Qed.

Lemma truthy_strip s :
  Exists (fun c => isspace c = false) s -> truthy (strip s) = true.
Proof.
  intros H. destruct (strip s) eqn:Es; [|done].
  apply strip_nil_all_ws in Es. apply Exists_exists in H as (c & Hin & Hc).
  rewrite Forall_forall in Es.
  specialize (Es c Hin). congruence.
Qed.

Lemma sub_ws_all_ws s :
  Forall (fun c => isspace c = true) s ->
  Forall (fun c => isspace c = true) (sub ws_plus (py " ") s).
Proof.
  intros H. destruct s as [|c s']; [done|].
  rewrite sub_ws_cons. inversion_clear H as [|? ? Hc Hs].
  rewrite Hc. assert (lstrip s' = []) as ->.
  { clear Hc. induction Hs as [|d t Hd _ IH]; simpl; [done|]. by rewrite Hd. }
  by repeat constructor.
Qed.

(** A text without any allowed character is cleaned to the empty
    string. *)
Lemma normalise_disallowed s :
  Forall (fun c => allowed_english c = false) s ->
  normalise Base.not_allowed s = [].
Proof.
  intros H. unfold normalise. apply strip_all_ws, sub_ws_all_ws.
  rewrite sub_One. induction H as [|c s' Hc _ IH]; simpl; [done|].
  apply Forall_app. split; [|done].
  destruct (in_cset Base.not_allowed c) eqn:Ec; [by repeat constructor|].
  apply base_not_allowed_spec in Ec as [Ec|Ec]; [congruence|].
  by repeat constructor.
Qed.

Lemma disallowed_strip s :
  Forall (fun c => allowed_english c = false) s ->
  Forall (fun c => allowed_english c = false) (strip s).
Proof.
  intros H. destruct (strip_infix s) as (l1 & l2 & Es). rewrite Es in H.
  apply Forall_app in H as [_ H]. by apply Forall_app in H as [H _].
Qed.

(** C10: a request without image whose text is not all whitespace and has
    no character of the allow-list passes the check for input and is
    answered with status 200, an empty [combined_cleaned_text] and four
    empty collections. *)
Theorem disallowed_text_yields_empty_card (text : str) (w : World) :
  Forall (fun c => allowed_english c = false) text ->
  Exists (fun c => isspace c = false) text ->
  Base.process_visiting_card E U (text_request text) w
  = (inr {| status := 200;
            json := JCard [] []
              {| emails := []; phones := []; addresses := []; numbers := [] |} |},
     w).
Proof.
  intros Hd Hn. unfold Base.process_visiting_card. simpl.
  rewrite (truthy_strip text Hn). simpl.
  unfold bind, lift, ret. simpl.
  rewrite base_clean_normalise.
  rewrite (normalise_disallowed _ (disallowed_strip _ Hd)).
  reflexivity.
Qed.

End process.

(** A text of symbols outside the allow-list, one of them not ASCII. *)
Lemma disallowed_text_yields_empty_card_witness :
  Forall (fun c => allowed_english c = false) [35; 0x20AC; 32; 33]
  /\ Exists (fun c => isspace c = false) [35; 0x20AC; 32; 33]
  /\ Base.process_visiting_card engines_easy_fails ascii_db
       (text_request [35; 0x20AC; 32; 33]) empty_world
     = (inr {| status := 200;
               json := JCard [] []
                 {| emails := []; phones := []; addresses := [];
                    numbers := [] |} |},
        empty_world).
Proof.
  assert (Forall (fun c => allowed_english c = false) [35; 0x20AC; 32; 33])
    as H1 by (repeat constructor).
  assert (Exists (fun c => isspace c = false) [35; 0x20AC; 32; 33])
    as H2 by (by left).
  split; [exact H1|]. split; [exact H2|].
  exact (disallowed_text_yields_empty_card engines_easy_fails ascii_db
           [35; 0x20AC; 32; 33] empty_world H1 H2).
Defined.

(** A text of four kinds of whitespace. *)
Lemma whitespace_text_rejected_witness :
  Forall (fun c => isspace c = true) [32; 9; 10; 0xA0]
  /\ Base.process_visiting_card engines_easy_fails ascii_db
       (text_request [32; 9; 10; 0xA0]) empty_world
     = Base.process_visiting_card engines_easy_fails ascii_db
         empty_request empty_world.
Proof.
  assert (Forall (fun c => isspace c = true) [32; 9; 10; 0xA0]) as H
    by (repeat constructor).
  split; [exact H|].
  exact (proj1 (whitespace_text_rejected engines_easy_fails ascii_db
                  [32; 9; 10; 0xA0] empty_world H)).
Defined.

(** ** The engine adapters and the image branch *)

Section adapters.

Context {bbox conf mat : Type}.
Variable E : Engines bbox conf mat.
Variable U : UnicodeDB.

(** The Tesseract adapter of the base variant returns whatever its engine
    does, and leaves the files alone. *)
Lemma base_ocr_with_tesseract p w :
  Base.ocr_with_tesseract E p w
  = (inr (raw_or_empty
            (image_to_string E None
               (cv2_imread E (fs w !! realpath (disk E) p)))),
     {| fs := fs w; calls := calls w ++ [py "tesseract"] |}).
Proof.
  unfold Base.ocr_with_tesseract, try_except, bind, imread, tesseract. simpl.
  by destruct (image_to_string E None _).
Qed.

(** So does the Paddle adapter, also when the result has a [None]
    block. *)
Lemma base_ocr_with_paddle p w :
  Base.ocr_with_paddle E p w
  = (inr (paddle_raw (paddle_ocr E (fs w !! realpath (disk E) p))),
     {| fs := fs w; calls := calls w ++ [py "paddleocr"] |}).
Proof.
  unfold Base.ocr_with_paddle, try_except, bind, paddle, invoke, lift,
    paddle_raw. simpl.
  destruct (paddle_ocr E _) as [e|res]; [done|].
  by destruct (paddle_texts res).
Qed.

(** The image branch when the upload is saved and EasyOCR returns: all
    three engines are run, the upload is removed, and the three results
    are handed on. *)
Lemma image_branch_completes (f : FileStorage) (w : World) dets :
  truthy (filename f) = true ->
  existsb (endswith (lower U (filename f))) Base.allowed_extensions = true ->
  makedirs_error (disk E) (py "uploads") = None ->
  save_error (disk E) (os_path_join (py "uploads") (filename f)) (stream f)
  = None ->
  easy_readtext E (Some (stream f)) = inr dets ->
  let p := os_path_join (py "uploads") (filename f) in
  let easy_raw := join nl (map (fun t => snd (fst t)) dets) in
  let tesseract_raw :=
    raw_or_empty (image_to_string E None (cv2_imread E (Some (stream f)))) in
  let paddle_raw := paddle_raw (paddle_ocr E (Some (stream f))) in
  let clean := normalise Base.not_allowed in
  Base.image_branch E U (Some f) w
  = (inr (inr
       ([(py "easyocr", {| raw := easy_raw; cleaned := clean easy_raw |});
         (py "tesseract",
          {| raw := tesseract_raw; cleaned := clean tesseract_raw |});
         (py "paddleocr", {| raw := paddle_raw; cleaned := clean paddle_raw |})],
        clean easy_raw ++ py " " ++ clean tesseract_raw ++ py " "
          ++ clean paddle_raw)),
     after_engines (realpath (disk E) p) w).
Proof.
  intros Hname Hext Hdir Hsave Heasy p easy_raw tesseract_raw praw clean.
  unfold Base.image_branch. rewrite Hname, Hext. cbn [negb].
  unfold bind at 1. unfold os_makedirs at 1. rewrite Hdir.
  fold p. unfold bind at 1. unfold save at 1. fold p in Hsave. rewrite Hsave.
  unfold try_except_Exception, Base.run_engines.
  unfold bind at 1. unfold bind at 1. unfold readtext, invoke. cbn [fs calls].
  rewrite lookup_insert_eq, Heasy.
  unfold bind at 1. rewrite base_ocr_with_tesseract. cbn [fs calls].
  unfold bind at 1. rewrite base_ocr_with_paddle. cbn [fs calls].
  rewrite !lookup_insert_eq, !base_clean_normalise.
  unfold bind, lift, ret, os_remove. cbn [fs calls].
  rewrite lookup_insert_eq, delete_insert_eq.
  unfold after_engines. by rewrite <- !app_assoc.
Qed.

(** The image branch when the upload is saved and EasyOCR raises an
    [Exception]: the answer is the status 500, and the upload stays on
    disk. *)
Lemma image_branch_easyocr_raises (f : FileStorage) (w : World) e :
  truthy (filename f) = true ->
  existsb (endswith (lower U (filename f))) Base.allowed_extensions = true ->
  makedirs_error (disk E) (py "uploads") = None ->
  save_error (disk E) (os_path_join (py "uploads") (filename f)) (stream f)
  = None ->
  easy_readtext E (Some (stream f)) = inl e ->
  is_Exception e = true ->
  let p := os_path_join (py "uploads") (filename f) in
  Base.image_branch E U (Some f) w
  = (inr (inl (Base.ocr_failed e)),
     {| fs := <[realpath (disk E) p := stream f]> (fs w);
        calls := calls w ++ [py "easyocr"] |}).
Proof.
  intros Hname Hext Hdir Hsave Heasy He p.
  unfold Base.image_branch. rewrite Hname, Hext. cbn [negb].
  unfold bind at 1. unfold os_makedirs at 1. rewrite Hdir.
  fold p. unfold bind at 1. unfold save at 1. fold p in Hsave. rewrite Hsave.
  unfold try_except_Exception, Base.run_engines.
  unfold bind at 1. unfold bind at 1. unfold readtext, invoke. cbn [fs calls].
  rewrite lookup_insert_eq, Heasy, He. done.
Qed.


End adapters.



(** C8, what the code does when EasyOCR raises on an accepted upload: the
    request is answered with status 500 and the file saved under
    [uploads/] is still on disk afterwards, where the claim has it
    removed. *)
Theorem upload_kept_when_easyocr_raises :
  let out := Base.process_visiting_card engines_easy_fails ascii_db
               card_request empty_world in
  fst out = inr (Base.ocr_failed corrupt_image)
  /\ fs (snd out) !! py "uploads/Card.PNG" = Some (stream card_png).
Proof. split; vm_compute; reflexivity. Qed.

(** ** The normaliser as a split and a join *)

Lemma py_split_ws c s : isspace c = true -> py_split (c :: s) = py_split s.
Proof.
  intros Hc. unfold py_split. simpl.
  destruct (split_head s) as [w ws]. by rewrite Hc.
Qed.

Lemma py_split_lstrip s : py_split (lstrip s) = py_split s.
Proof.
  induction s as [|c s' IH]; [done|]. simpl.
  destruct (isspace c) eqn:Hc; [|done]. by rewrite py_split_ws.
Qed.

Lemma split_head_rstrip s : split_head (rstrip s) = split_head s.
Proof.
  induction s as [|c s' IH]; [done|]. simpl.
  rewrite <- IH. destruct (rstrip s') as [|d t] eqn:Er.
  - simpl. destruct (isspace c) eqn:Hc; simpl; [done|]. by rewrite Hc.
  - done.
Qed.

Lemma py_split_strip s : py_split (strip s) = py_split s.
Proof.
  unfold strip. unfold py_split at 1. rewrite split_head_rstrip.
  apply py_split_lstrip.
Qed.

Lemma split_head_sub_ws n : forall s, (length s <= n)%nat ->
  split_head (sub ws_plus (py " ") s) = split_head s.
Proof.
  induction n as [|n IH]; intros [|c s'] Hlen; simpl in Hlen; try done; try lia.
  rewrite sub_ws_cons. destruct (isspace c) eqn:Hc.
  - cbn [split_head]. rewrite Hc.
    change (isspace 32) with true. cbv iota.
    rewrite IH by (pose proof (length_lstrip s'); lia).
    pose proof (py_split_lstrip s') as H. unfold py_split in H.
    destruct (split_head (lstrip s')), (split_head s'). by rewrite H.
  - cbn [split_head]. rewrite Hc, IH by lia. done.
Qed.

Lemma py_split_sub_ws s : py_split (sub ws_plus (py " ") s) = py_split s.
Proof. unfold py_split. by rewrite (split_head_sub_ws _ s (Nat.le_refl _)). Qed.

Lemma split_head_nonempty s :
  head_ok s = true -> s <> [] -> fst (split_head s) <> [].
Proof.
  destruct s as [|c s']; [done|]. simpl. intros Hc _.
  destruct (split_head s') as [w ws]. apply negb_true_iff in Hc.
  by rewrite Hc.
Qed.

Lemma py_split_words_nonempty s : Forall (fun w => w <> []) (py_split s).
Proof.
  assert (Forall (fun w => w <> []) (snd (split_head s))) as H.
  { induction s as [|c s' IH]; simpl; [constructor|].
    destruct (split_head s') as [w ws]. simpl in IH.
    destruct (isspace c); simpl; [|done].
    destruct w; simpl; [done|]. by constructor. }
  unfold py_split. destruct (split_head s) as [w ws]. simpl in H.
  destruct w; simpl; [done|]. by constructor.
Qed.

(** A squeezed string that does not end in whitespace and whose only
    whitespace is the ASCII space is its head word and its other words,
    joined by spaces. *)
Lemma join_split_head t :
  squeezed t = true ->
  (forall c, last t = Some c -> isspace c = false) ->
  Forall (fun c => isspace c = true -> c = 32) t ->
  join (py " ") (fst (split_head t) :: snd (split_head t)) = t.
Proof.
  induction t as [|c t' IH]; [done|].
  intros Hs Hl Hw. inversion_clear Hw as [|? ? Hc Hw'].
  cbn [squeezed] in Hs. apply andb_true_iff in Hs as [Hh Hs].
  destruct t' as [|d t''].
  - simpl. rewrite (Hl c eq_refl). done.
  - specialize (IH Hs). assert (IHt := IH (fun x Hx => Hl x Hx) Hw').
    clear IH.
    assert (Hne := split_head_nonempty (d :: t'')).
    remember (d :: t'') as t' eqn:Et.
    cbn [split_head]. destruct (split_head t') as [w ws]. cbn [fst snd] in *.
    destruct (isspace c) eqn:Ec.
    + rewrite orb_false_l in Hh. specialize (Hne Hh ltac:(by subst)).
      rewrite (Hc eq_refl). destruct w as [|x w]; [done|].
      cbn [push_word fst snd]. exact (f_equal (cons 32) IHt).
    + cbn [fst snd]. destruct ws as [|w2 ws].
      * simpl in *. by rewrite IHt.
      * exact (f_equal (cons c) IHt).
Qed.

Lemma join_py_split t :
  squeezed t = true -> strip t = t ->
  Forall (fun c => isspace c = true -> c = 32) t ->
  join (py " ") (py_split t) = t.
Proof.
  intros Hs Ht Hw.
  assert (head_ok t = true) as Hh.
  { rewrite <- Ht. apply head_ok_rstrip, head_ok_lstrip. }
  assert (forall c, last t = Some c -> isspace c = false) as Hl.
  { rewrite <- Ht. apply strip_last. }
  pose proof (join_split_head t Hs Hl Hw) as Hj.
  pose proof (split_head_nonempty t Hh) as Hne.
  unfold py_split. destruct (split_head t) as [w ws]. cbn [fst snd] in *.
  destruct t as [|c t']; [by destruct w; destruct ws|].
  specialize (Hne ltac:(done)). by destruct w.
Qed.

Lemma not_ws_not_ws c : negb (isspace c) = true -> isspace c = false.
Proof. apply negb_true_iff. Qed.

(** Collapsing whitespace and stripping is splitting into words and
    joining them with single spaces. *)
Lemma strip_sub_ws_words s :
  strip (sub ws_plus (py " ") s) = join (py " ") (py_split s).
Proof.
  destruct (sub_ws_squeezed_n (fun c => negb (isspace c)) not_ws_not_ws
              _ s (Nat.le_refl _)) as [Hc Hs].
  { apply Forall_forall. intros c _. destruct (isspace c); auto. }
  rewrite <- (py_split_sub_ws s), <- (py_split_strip (sub _ _ s)).
  symmetry. apply join_py_split.
  - by apply squeezed_rstrip, squeezed_lstrip.
  - apply strip_idem.
  - destruct (strip_infix (sub ws_plus (py " ") s)) as (l1 & l2 & E).
    unfold clean_chars in Hc. rewrite E in Hc.
    apply Forall_app in Hc as [_ Hc]. apply Forall_app in Hc as [Hc _].
    eapply Forall_impl; [exact Hc|]. simpl. intros c [H|H] W; [|done].
    rewrite W in H. done.
Qed.

Lemma sub_One_blank cs s : sub (One cs) (py " ") s = blank cs s.
Proof.
  rewrite sub_One. unfold blank. induction s as [|c s' IH]; simpl; [done|].
  rewrite IH. by destruct (in_cset cs c).
Qed.

Lemma normalise_words cs s :
  normalise cs s = join (py " ") (py_split (blank cs s)).
Proof. unfold normalise. by rewrite sub_One_blank, strip_sub_ws_words. Qed.

(** X1: in both variants the normaliser is Python's
    [" ".join(t.split())] applied to the text [t] in which every
    character outside the variant's set is replaced by a space. *)
Theorem clean_text_regex_split_join (x : str) :
  Base.clean_text_regex (Some x)
  = inr (join (py " ") (py_split (blank Base.not_allowed x)))
  /\ Bilingual.clean_text_regex (Some x)
     = inr (join (py " ") (py_split (blank Bilingual.not_allowed x))).
Proof.
  rewrite base_clean_normalise, bilingual_clean_normalise.
  by rewrite !normalise_words.
Qed.

(** ** What the normaliser keeps, and how it composes *)

Lemma concat_split_head s :
  fst (split_head s) ++ concat (snd (split_head s))
  = List.filter (fun c => negb (isspace c)) s.
Proof.
  induction s as [|c s' IH]; [done|]. simpl.
  destruct (split_head s') as [w ws]. simpl in IH.
  destruct (isspace c); simpl; rewrite <- IH; by destruct w.
Qed.

Lemma concat_py_split s :
  concat (py_split s) = List.filter (fun c => negb (isspace c)) s.
Proof.
  rewrite <- concat_split_head. unfold py_split.
  destruct (split_head s) as [w ws]. by destruct w.
Qed.

Lemma filter_join (f : cp -> bool) sep l :
  List.filter f sep = [] ->
  List.filter f (join sep l) = List.filter f (concat l).
Proof.
  intros Hsep. induction l as [|x l' IH]; [done|].
  destruct l' as [|y l''].
  - simpl. by rewrite app_nil_r.
  - change (join sep (x :: y :: l'')) with (x ++ sep ++ join sep (y :: l'')).
    change (concat (x :: y :: l'')) with (x ++ concat (y :: l'')).
    by rewrite !List.filter_app, Hsep, IH.
Qed.

Lemma filter_filter_implies (f g : cp -> bool) s :
  (forall c, f c = true -> g c = true) ->
  List.filter f (List.filter g s) = List.filter f s.
Proof.
  intros H. induction s as [|c s' IH]; [done|]. simpl.
  destruct (g c) eqn:Eg; simpl.
  - by rewrite IH.
  - destruct (f c) eqn:Ef; [|done]. apply H in Ef. congruence.
Qed.

Lemma length_sub_ws n : forall s, (length s <= n)%nat ->
  (length (sub ws_plus (py " ") s) <= length s)%nat.
Proof.
  induction n as [|n IH]; intros [|c s'] Hlen; simpl in Hlen;
    try (simpl; lia); try lia.
  rewrite sub_ws_cons. destruct (isspace c); simpl.
  - pose proof (length_lstrip s').
    pose proof (IH (lstrip s') ltac:(lia)). lia.
  - pose proof (IH s' ltac:(lia)). lia.
Qed.

Lemma length_strip s : (length (strip s) <= length s)%nat.
Proof.
  destruct (strip_infix s) as (l1 & l2 & E).
  rewrite E at 2. rewrite !length_app. lia.
Qed.

Lemma length_normalise cs s : (length (normalise cs s) <= length s)%nat.
Proof.
  unfold normalise. rewrite sub_One_blank.
  pose proof (length_strip (sub ws_plus (py " ") (blank cs s))).
  pose proof (length_sub_ws _ (blank cs s) (Nat.le_refl _)).
  unfold blank in *. rewrite length_map in *. lia.
Qed.

Section keeps.

Variable cs : cset.
Variable vis : cp -> bool.
Hypothesis cs_vis : forall c, in_cset cs c = false <-> vis c = true \/ isspace c = true.
Hypothesis vis_not_ws : forall c, vis c = true -> isspace c = false.

Lemma filter_blank s : List.filter vis (blank cs s) = List.filter vis s.
Proof using cs_vis vis_not_ws.
  induction s as [|c s' IH]; [done|]. simpl. rewrite IH.
  destruct (in_cset cs c) eqn:Ec; [|done].
  assert (vis 32 = false) as ->.
  { destruct (vis 32) eqn:E; [|done]. by apply vis_not_ws in E. }
  destruct (vis c) eqn:Ev; [|done].
  assert (in_cset cs c = false) by (apply cs_vis; by left). congruence.
Qed.

(** The visible characters pass through the normaliser, all of them and
    in their order. *)
Lemma filter_normalise s : List.filter vis (normalise cs s) = List.filter vis s.
Proof using cs_vis vis_not_ws.
  rewrite normalise_words, filter_join, concat_py_split.
  - rewrite filter_filter_implies; [apply filter_blank|].
    intros c Hc. apply vis_not_ws in Hc. by rewrite Hc.
  - change (py " ") with [32]. simpl.
    destruct (vis 32) eqn:E; [|done]. by apply vis_not_ws in E.
Qed.

Lemma normalise_nil_iff s :
  normalise cs s = [] <-> Forall (fun c => vis c = false) s.
Proof using cs_vis vis_not_ws.
  split.
  - intros H. pose proof (filter_normalise s) as Hf. rewrite H in Hf.
    simpl in Hf. clear H. induction s as [|c s' IH]; [constructor|].
    simpl in Hf. destruct (vis c) eqn:Ev; [done|]. constructor; auto.
  - intros H. unfold normalise. apply strip_all_ws, sub_ws_all_ws.
    rewrite sub_One_blank. induction H as [|c s' Hc _ IH]; simpl; [done|].
    constructor; [|done].
    destruct (in_cset cs c) eqn:Ec; [done|].
    apply cs_vis in Ec as [Ec|Ec]; [congruence|done].
Qed.

End keeps.

(** X2: in both variants the allowed characters of the cleaned text are
    the allowed characters of the input, all of them and in the same
    order: the normaliser only removes or replaces other characters. *)
Theorem clean_text_regex_keeps_allowed (x : str) :
  (exists y, Base.clean_text_regex (Some x) = inr y
             /\ List.filter allowed_english y = List.filter allowed_english x)
  /\ (exists y, Bilingual.clean_text_regex (Some x) = inr y
                /\ List.filter allowed_bilingual y
                   = List.filter allowed_bilingual x).
Proof.
  split; eexists; (split; [first [apply base_clean_normalise
                                 | apply bilingual_clean_normalise]|]).
  - apply filter_normalise;
      [apply base_not_allowed_spec | apply allowed_english_not_ws].
  - apply filter_normalise;
      [apply bilingual_not_allowed_spec | apply allowed_bilingual_not_ws].
Qed.

(** X3: in both variants the cleaned text is empty exactly when the input
    has no character of the allow-list. *)
Theorem clean_text_regex_empty_iff (x : str) :
  (Base.clean_text_regex (Some x) = inr []
   <-> Forall (fun c => allowed_english c = false) x)
  /\ (Bilingual.clean_text_regex (Some x) = inr []
      <-> Forall (fun c => allowed_bilingual c = false) x).
Proof.
  rewrite base_clean_normalise, bilingual_clean_normalise. split.
  - rewrite <- (normalise_nil_iff _ _ base_not_allowed_spec
                  allowed_english_not_ws).
    split; [by intros [= ->]|by intros ->].
  - rewrite <- (normalise_nil_iff _ _ bilingual_not_allowed_spec
                  allowed_bilingual_not_ws).
    split; [by intros [= ->]|by intros ->].
Qed.

(** X4: in both variants the cleaned text is never longer than the
    input. *)
Theorem clean_text_regex_length (x : str) :
  (exists y, Base.clean_text_regex (Some x) = inr y
             /\ (length y <= length x)%nat)
  /\ (exists y, Bilingual.clean_text_regex (Some x) = inr y
                /\ (length y <= length x)%nat).
Proof.
  split; eexists; (split; [first [apply base_clean_normalise
                                 | apply bilingual_clean_normalise]|]);
    apply length_normalise.
Qed.

Lemma not_allowed_agree c :
  is_bangla c = false -> c <> chr "<" -> c <> chr ">" ->
  in_cset Base.not_allowed c = in_cset Bilingual.not_allowed c.
Proof.
  intros Hb Hl Hg.
  assert (allowed_bilingual c = allowed_english c) as Ha.
  { unfold allowed_bilingual. rewrite Hb.
    apply N.eqb_neq in Hl, Hg. rewrite Hl, Hg. by rewrite !orb_false_r. }
  pose proof (base_not_allowed_spec c) as H1.
  pose proof (bilingual_not_allowed_spec c) as H2. rewrite Ha in H2.
  destruct (in_cset Base.not_allowed c), (in_cset Bilingual.not_allowed c);
    try done.
  - exfalso. assert (true = false) by (apply H1, H2; done). done.
  - exfalso. assert (true = false) by (apply H2, H1; done). done.
Qed.

(** X5: on a text without Bangla characters and without [<] and [>] the
    two variants of the normaliser return the same cleaned text. *)
Theorem clean_text_regex_variants_agree (x : str) :
  Forall (fun c => is_bangla c = false /\ c <> chr "<" /\ c <> chr ">") x ->
  Base.clean_text_regex (Some x) = Bilingual.clean_text_regex (Some x).
Proof.
  intros H. rewrite base_clean_normalise, bilingual_clean_normalise.
  unfold normalise. rewrite !sub_One_blank. do 3 f_equal.
  induction H as [|c s' (Hb & Hl & Hg) _ IH]; [done|]. simpl.
  by rewrite IH, (not_allowed_agree c Hb Hl Hg).
Qed.

(** A line with an e-mail address, a symbol and a tab. *)
Lemma clean_text_regex_variants_agree_witness :
  Forall (fun c => is_bangla c = false /\ c <> chr "<" /\ c <> chr ">")
         [109; 64; 120; 46; 105; 111; 9; 35; 49]
  /\ Base.clean_text_regex (Some [109; 64; 120; 46; 105; 111; 9; 35; 49])
     = Bilingual.clean_text_regex (Some [109; 64; 120; 46; 105; 111; 9; 35; 49]).
Proof.
  assert (Forall (fun c => is_bangla c = false /\ c <> chr "<" /\ c <> chr ">")
            [109; 64; 120; 46; 105; 111; 9; 35; 49]) as H
    by (repeat constructor; discriminate).
  split; [exact H|]. exact (clean_text_regex_variants_agree _ H).
Defined.

Lemma split_head_app_ws sep a b :
  isspace sep = true ->
  split_head (a ++ sep :: b)
  = (fst (split_head a), snd (split_head a) ++ py_split b).
Proof.
  intros Hs. induction a as [|c a' IH].
  - simpl. fold (py_split b). unfold py_split.
    destruct (split_head b) as [w ws]. by rewrite Hs.
  - cbn [app split_head]. rewrite IH.
    destruct (split_head a') as [w ws]. cbn [fst snd].
    destruct (isspace c); [|done]. by destruct w.
Qed.

Lemma py_split_app_ws sep a b :
  isspace sep = true -> py_split (a ++ sep :: b) = py_split a ++ py_split b.
Proof.
  intros Hs. unfold py_split at 1 2. rewrite (split_head_app_ws sep a b Hs).
  destruct (split_head a) as [w ws]. by destruct w.
Qed.

Lemma py_split_join sep ps :
  isspace sep = true ->
  py_split (join [sep] ps) = concat (map py_split ps).
Proof.
  intros Hs. induction ps as [|p ps' IH]; [done|].
  destruct ps' as [|q ps''].
  - simpl. by rewrite app_nil_r.
  - change (join [sep] (p :: q :: ps'')) with (p ++ sep :: join [sep] (q :: ps'')).
    rewrite (py_split_app_ws sep _ _ Hs), IH. done.
Qed.

Lemma blank_join cs sep ps :
  blank cs (join [sep] ps)
  = join [if in_cset cs sep then 32 else sep] (map (blank cs) ps).
Proof.
  induction ps as [|p ps' IH]; [done|].
  destruct ps' as [|q ps'']; [done|].
  change (join [sep] (p :: q :: ps'')) with (p ++ sep :: join [sep] (q :: ps'')).
  unfold blank at 1. rewrite map_app. cbn [map]. fold (blank cs p).
  fold (blank cs (join [sep] (q :: ps''))). rewrite IH. done.
Qed.

Lemma join_nil_words ws :
  Forall (fun w : str => w <> []) ws -> join (py " ") ws = [] -> ws = [].
Proof.
  intros H. destruct H as [|w ws' Hw _]; [done|].
  destruct w; [done|]. by destruct ws'.
Qed.

Lemma join_app_words ws1 ws2 :
  ws1 <> [] -> ws2 <> [] ->
  join (py " ") (ws1 ++ ws2) = join (py " ") ws1 ++ py " " ++ join (py " ") ws2.
Proof.
  intros H1 H2. induction ws1 as [|w ws1' IH]; [done|].
  destruct ws1' as [|w' ws1''].
  - destruct ws2; done.
  - change (join (py " ") ((w :: w' :: ws1'') ++ ws2))
      with (w ++ py " " ++ join (py " ") ((w' :: ws1'') ++ ws2)).
    rewrite IH by done.
    change (join (py " ") (w :: w' :: ws1''))
      with (w ++ py " " ++ join (py " ") (w' :: ws1'')).
    by rewrite <- !app_assoc.
Qed.

Lemma filter_truthy_nonempty (l : list str) :
  Forall (fun w : str => w <> []) (List.filter truthy l).
Proof.
  induction l as [|x l' IH]; [constructor|]. simpl.
  destruct x; simpl; [done|]. by constructor.
Qed.

(** Joining the words of several texts is joining the texts that have
    words, each with its words joined. *)
Lemma join_concat_words (wss : list (list str)) :
  Forall (Forall (fun w : str => w <> [])) wss ->
  join (py " ") (concat wss)
  = join (py " ") (List.filter truthy (map (join (py " ")) wss)).
Proof.
  intros H. assert (Hall := proj2 (Forall_concat _ _) H). revert Hall.
  induction H as [|ws wss' Hws _ IH]; [done|]. cbn [concat map List.filter].
  intros Hall. apply Forall_app in Hall as [_ Hall]. specialize (IH Hall).
  destruct ws as [|w ws'] eqn:Ews; [done|]. rewrite <- Ews in *.
  assert (truthy (join (py " ") ws) = true) as ->.
  { destruct (join (py " ") ws) eqn:Ej; [|done].
    apply join_nil_words in Ej; [|done]. by subst. }
  pose proof (filter_truthy_nonempty (map (join (py " ")) wss')) as Hf.
  destruct (concat wss') as [|x xs] eqn:Ec.
  - symmetry in IH. apply join_nil_words in IH; [|done].
    rewrite IH, app_nil_r. done.
  - rewrite join_app_words by (by subst).
    destruct (List.filter truthy (map (join (py " ")) wss')) as [|y ys] eqn:Ef.
    + apply join_nil_words in IH; done.
    + change (join (py " ") (join (py " ") ws :: y :: ys))
        with (join (py " ") ws ++ py " " ++ join (py " ") (y :: ys)).
      by rewrite <- IH.
Qed.

(** Cleaning texts joined by a whitespace character is cleaning each and
    joining the results that are not empty with single spaces. *)
Lemma normalise_join cs sep ps :
  isspace sep = true ->
  normalise cs (join [sep] ps)
  = join (py " ") (List.filter truthy (map (normalise cs) ps)).
Proof.
  intros Hs. rewrite normalise_words, blank_join, py_split_join.
  - rewrite join_concat_words.
    + rewrite !map_map. f_equal. f_equal. apply map_ext.
      intros p. by rewrite normalise_words.
    + apply Forall_forall. intros ws Hin.
      apply list_elem_of_In, in_map_iff in Hin as (q & <- & _).
      apply py_split_words_nonempty.
  - by destruct (in_cset cs sep).
Qed.

(** X6: in both variants, cleaning lines joined by newlines - the raw
    text of an engine - gives the cleaned lines that are not empty, joined
    by single spaces. *)
Theorem clean_text_regex_lines (lines cleaned : list str) :
  Forall2 (fun l c => Base.clean_text_regex (Some l) = inr c) lines cleaned ->
  Base.clean_text_regex (Some (join nl lines))
  = inr (join (py " ") (List.filter truthy cleaned)).
Proof.
  intros H. rewrite base_clean_normalise. f_equal.
  rewrite (normalise_join _ 10 lines eq_refl). do 2 f_equal.
  induction H as [|l c ls cs' Hc _ IH]; [done|]. simpl.
  rewrite base_clean_normalise in Hc. injection Hc as ->. by rewrite IH.
Qed.

(** Three detected lines, the second without any allowed character. *)
Lemma clean_text_regex_lines_witness :
  Forall2 (fun l c => Base.clean_text_regex (Some l) = inr c)
          [py "ACME  Ltd"; py "###"; py " Dhaka "]
          [py "ACME Ltd"; []; py "Dhaka"]
  /\ Base.clean_text_regex
       (Some (join nl [py "ACME  Ltd"; py "###"; py " Dhaka "]))
     = inr (py "ACME Ltd Dhaka").
Proof.
  assert (Forall2 (fun l c => Base.clean_text_regex (Some l) = inr c)
            [py "ACME  Ltd"; py "###"; py " Dhaka "]
            [py "ACME Ltd"; []; py "Dhaka"]) as H
    by (repeat constructor).
  split; [exact H|]. exact (clean_text_regex_lines _ _ H).
Defined.

(** ** The matcher finds only what the pattern matches *)

Lemma rep_sound p s : forall lo hi k out,
  rep p lo hi s k = Some out ->
  exists m s', s = m ++ s' /\ Forall (fun c => p c = true) m
    /\ (lo <= length m)%nat /\ within hi (length m) /\ k s' = Some out.
Proof.
  assert (forall lo hi (k : str -> option str) out t,
            (if Nat.eqb lo 0 then k t else None) = Some out ->
            exists m s', t = m ++ s' /\ Forall (fun c => p c = true) m
              /\ (lo <= length m)%nat /\ within hi (length m)
              /\ k s' = Some out) as Hstop.
  { intros lo hi k out t H. destruct lo; [|done]. simpl in H.
    exists [], t. repeat split; [constructor|done| |done].
    destruct hi; simpl; lia. }
  induction s as [|c s' IH]; intros lo hi k out H; simpl in H.
  - by apply Hstop.
  - destruct (p c && room hi) eqn:Hc; [|by apply Hstop].
    destruct (rep p (Nat.pred lo) (less hi) s' k) as [out'|] eqn:Hr;
      [|by apply Hstop].
    injection H as <-. apply andb_true_iff in Hc as [Hc Hroom].
    apply IH in Hr as (m & s'' & -> & Hm & Hlo & Hhi & Hk).
    exists (c :: m), s''. repeat split; [by constructor|simpl; lia| |done].
    destruct hi as [[|h]|]; simpl in *; [done|lia|done].
Qed.

Lemma mtch_sound r : forall s k out,
  mtch r s k = Some out ->
  exists m s', s = m ++ s' /\ matches r m /\ k s' = Some out.
Proof.
  induction r as [|cs|r1 IH1 r2 IH2|r1 IH1 r2 IH2|cs lo hi];
    intros s k out H; simpl in H.
  - exists [], s. repeat split; [constructor|done].
  - destruct s as [|c s']; [done|].
    destruct (in_cset cs c) eqn:Hc; [|done].
    exists [c], s'. repeat split; [by constructor|done].
  - apply IH1 in H as (m1 & s1 & -> & Hm1 & H).
    apply IH2 in H as (m2 & s2 & -> & Hm2 & H).
    exists (m1 ++ m2), s2. rewrite <- app_assoc.
    repeat split; [by constructor|done].
  - destruct (mtch r1 s k) as [out'|] eqn:H1.
    + injection H as <-. apply IH1 in H1 as (m & s' & -> & Hm & Hk).
      exists m, s'. repeat split; [by apply matches_Alt_l|done].
    + apply IH2 in H as (m & s' & -> & Hm & Hk).
      exists m, s'. repeat split; [by apply matches_Alt_r|done].
  - apply rep_sound in H as (m & s' & -> & Hm & Hlo & Hhi & Hk).
    exists m, s'. repeat split; [by constructor|done].
Qed.

Lemma match_at_sound r s m :
  match_at r s = Some m -> matches r m /\ exists rest, s = m ++ rest.
Proof.
  unfold match_at. destruct (mtch r s Some) as [rest|] eqn:H; [|done].
  intros [= <-]. apply mtch_sound in H as (m & s' & -> & Hm & [= ->]).
  rewrite length_app.
  replace (length m + length rest - length rest)%nat with (length m) by lia.
  rewrite take_app_length. eauto.
Qed.

Lemma occurs_in_cons c m s : occurs_in m s -> occurs_in m (c :: s).
Proof. intros (pre & post & ->). by exists (c :: pre), post. Qed.

Lemma scan_sound r s : forall n m,
  In (Hit m) (scan r s n) -> matches r m /\ occurs_in m s.
Proof.
  induction s as [|c s' IH]; intros n m H.
  - destruct n; [|done]. simpl in H.
    destruct (match_at r []) as [m0|] eqn:Hm; [|done].
    destruct H as [[= ->]|[]].
    apply match_at_sound in Hm as [Hm [rest ->]].
    split; [done|]. by exists [], rest.
  - destruct n as [|n]; simpl in H.
    + destruct (match_at r (c :: s')) as [m0|] eqn:Hm.
      * destruct H as [[= ->]|H].
        { apply match_at_sound in Hm as [Hm [rest ->]].
          split; [done|]. by exists [], rest. }
        destruct m0 as [|x m0'].
        { destruct H as [[=]|H]. apply IH in H as [? ?].
          split; [done|]. by apply occurs_in_cons. }
        apply IH in H as [? ?]. split; [done|]. by apply occurs_in_cons.
      * destruct H as [[=]|H]. apply IH in H as [? ?].
        split; [done|]. by apply occurs_in_cons.
    + apply IH in H as [? ?]. split; [done|]. by apply occurs_in_cons.
Qed.

(** Every string [re.findall] returns is matched by the pattern and
    occurs in the text. *)
Lemma findall_sound r s m :
  In m (findall r s) -> matches r m /\ occurs_in m s.
Proof.
  unfold findall. rewrite in_flat_map. intros ([c|m'] & Hin & Hm); [done|].
  destruct Hm as [<-|[]]. by apply scan_sound in Hin.
Qed.

Lemma In_list_set x l : In x (list_set l) <-> In x l.
Proof.
  unfold list_set. by rewrite <- !list_elem_of_In, elem_of_remove_dups.
Qed.

Lemma matches_Lit s m : matches (Lit s) m -> m = s.
Proof.
  revert m. induction s as [|c s' IH]; intros m H.
  - by inversion H.
  - destruct s' as [|d s''].
    + inversion H as [|cs x Hx| | | |]; subst. unfold in_cset in Hx.
      simpl in Hx. rewrite orb_false_r in Hx. apply N.eqb_eq in Hx. by subst.
    + simpl in H. inversion H as [| |r1 r2 m1 m2 H1 H2| | |]; subst.
      apply IH in H2 as ->.
      inversion H1 as [|cs x Hx| | | |]; subst. unfold in_cset in Hx.
      simpl in Hx. rewrite orb_false_r in Hx. apply N.eqb_eq in Hx. by subst.
Qed.

Lemma in_cset_class p c : in_cset (In_ [CClass p]) c = p c.
Proof. unfold in_cset. simpl. by rewrite orb_false_r. Qed.

(** ** What the extractors return *)

Lemma scan_Rep1 cs c s :
  scan (Rep cs 1 None) (c :: s) 0 =
    if in_cset cs c
    then Hit (c :: take (run (in_cset cs) s) s)
         :: scan (Rep cs 1 None) (drop (run (in_cset cs) s) s) 0
    else Gap c :: scan (Rep cs 1 None) s 0.
Proof.
  cbn [scan]. rewrite match_at_Rep. simpl run.
  destruct (in_cset cs c) eqn:Hc; simpl; [|done].
  rewrite length_take, (Nat.min_l _ _ (run_le (in_cset cs) s)).
  by rewrite scan_skip by apply run_le.
Qed.

Lemma filter_run (p : cp -> bool) s :
  List.filter p s = take (run p s) s ++ List.filter p (drop (run p s) s).
Proof.
  induction s as [|c s' IH]; [done|]. simpl.
  destruct (p c) eqn:Hc; simpl; [|by rewrite Hc]. by rewrite <- IH.
Qed.

(** The matches of [cs+], one after the other, are the characters of the
    text that are in [cs]. *)
Lemma concat_findall_Rep1 cs n : forall s, (length s <= n)%nat ->
  concat (findall (Rep cs 1 None) s) = List.filter (in_cset cs) s.
Proof.
  induction n as [|n IH]; intros [|c s'] Hlen; simpl in Hlen;
    try done; try lia.
  unfold findall. rewrite scan_Rep1. simpl List.filter.
  destruct (in_cset cs c) eqn:Hc; cbn [flat_map concat app].
  - fold (findall (Rep cs 1 None) (drop (run (in_cset cs) s') s')).
    rewrite IH by (rewrite length_drop; lia).
    by rewrite <- (filter_run (in_cset cs) s').
  - fold (findall (Rep cs 1 None) s'). apply IH. lia.
Qed.

(** X7: the numbers [extract_numbers] returns are distinct, each is a
    non-empty string of decimal digits that occurs in the text, and every
    decimal digit of the text lies in one of them. *)
Theorem extract_numbers_digits (U : UnicodeDB) (text : str) :
  NoDup (Base.extract_numbers U text)
  /\ Forall (fun n => n <> []
                      /\ Forall (fun c => isdecimal U c = true) n
                      /\ occurs_in n text)
            (Base.extract_numbers U text)
  /\ (forall c, In c text -> isdecimal U c = true ->
        exists n, In n (Base.extract_numbers U text) /\ In c n).
Proof.
  unfold Base.extract_numbers. split; [apply NoDup_remove_dups|]. split.
  - apply Forall_forall. intros n Hn.
    apply list_elem_of_In, In_list_set, findall_sound in Hn as [Hm Ho].
    inversion Hm as [| | | | |cs lo hi m Hall Hlo _]; subst.
    split; [destruct n; [simpl in Hlo; lia|done]|]. split; [|done].
    eapply Forall_impl; [exact Hall|]. intros c Hc. cbv beta in Hc.
    by rewrite in_cset_class in Hc.
  - intros c Hin Hd.
    assert (In c (concat (findall (Rep (In_ [CClass (isdecimal U)]) 1 None)
                            text))) as Hc.
    { rewrite (concat_findall_Rep1 _ _ text (Nat.le_refl _)).
      apply filter_In. by rewrite in_cset_class. }
    apply in_concat in Hc as (n & Hn & Hcn).
    exists n. split; [by apply In_list_set|done].
Qed.

Lemma email_local_class c :
  in_cset (In_ [CRange "a" "z"; CRange "A" "Z"; CRange "0" "9";
                CChar "."; CChar "_"; CChar "%"; CChar "+"; CChar "-"]) c
  = true -> email_local_char c = true.
Proof.
  unfold in_cset, In_, email_local_char, is_letter, is_digit.
  cbn [negated items existsb in_item xorb]. chr_values.
  intros H. bool_to_prop. tauto.
Qed.

Lemma email_domain_class c :
  in_cset (In_ [CRange "a" "z"; CRange "A" "Z"; CRange "0" "9";
                CChar "."; CChar "-"]) c
  = true -> email_domain_char c = true.
Proof.
  unfold in_cset, In_, email_domain_char, is_letter, is_digit.
  cbn [negated items existsb in_item xorb]. chr_values.
  intros H. bool_to_prop. tauto.
Qed.

Lemma email_tld_class c :
  in_cset (In_ [CRange "a" "z"; CRange "A" "Z"]) c = true ->
  is_letter c = true.
Proof.
  unfold in_cset, In_, is_letter.
  cbn [negated items existsb in_item xorb]. chr_values.
  intros H. bool_to_prop. tauto.
Qed.

Lemma matches_Lit1 c m : matches (Lit1 c) m -> m = [c].
Proof. apply (matches_Lit [c]). Qed.

(** X8: the e-mail addresses [extract_emails] returns are distinct, occur
    in the text, and each is a non-empty local part of letters, digits
    and [._%+-], an [@], a non-empty domain of letters, digits, [.] and
    [-], a [.] and at least two letters. *)
Theorem extract_emails_shape (text : str) :
  NoDup (Base.extract_emails text)
  /\ Forall (fun e =>
       occurs_in e text
       /\ exists loc domain tld,
            e = loc ++ py "@" ++ domain ++ py "." ++ tld
            /\ loc <> [] /\ Forall (fun c => email_local_char c = true) loc
            /\ domain <> []
            /\ Forall (fun c => email_domain_char c = true) domain
            /\ (2 <= length tld)%nat
            /\ Forall (fun c => is_letter c = true) tld)
       (Base.extract_emails text).
Proof.
  unfold Base.extract_emails. split; [apply NoDup_remove_dups|].
  apply Forall_forall. intros e He.
  apply list_elem_of_In, In_list_set, findall_sound in He as [Hm Ho].
  split; [done|]. unfold Base.email_pattern in Hm.
  inversion Hm as [| |? ? loc m1 Hloc H1| | |]; subst.
  inversion H1 as [| |? ? at_ m2 Hat H2| | |]; subst.
  inversion H2 as [| |? ? domain m3 Hdom H3| | |]; subst.
  inversion H3 as [| |? ? dot tld Hdot Htld| | |]; subst.
  apply matches_Lit1 in Hat as ->. apply matches_Lit1 in Hdot as ->.
  inversion Hloc as [| | | | |? ? ? ? Lall Llo _]; subst.
  inversion Hdom as [| | | | |? ? ? ? Dall Dlo _]; subst.
  inversion Htld as [| | | | |? ? ? ? Tall Tlo _]; subst.
  exists loc, domain, tld. repeat split.
  - destruct loc; [simpl in Llo; lia|done].
  - eapply Forall_impl; [exact Lall|]. apply email_local_class.
  - destruct domain; [simpl in Dlo; lia|done].
  - eapply Forall_impl; [exact Dall|]. apply email_domain_class.
  - done.
  - eapply Forall_impl; [exact Tall|]. apply email_tld_class.
Qed.

Lemma matches_Rep_inv cs lo hi m :
  matches (Rep cs lo hi) m ->
  Forall (fun c => in_cset cs c = true) m
  /\ (lo <= length m)%nat /\ within hi (length m).
Proof. by inversion 1. Qed.

Lemma matches_Cat_inv r1 r2 m :
  matches (Cat r1 r2) m ->
  exists m1 m2, m = m1 ++ m2 /\ matches r1 m1 /\ matches r2 m2.
Proof. inversion 1; subst; eauto. Qed.

Lemma matches_Alt_inv r1 r2 m :
  matches (Alt r1 r2) m -> matches r1 m \/ matches r2 m.
Proof. inversion 1; subst; auto. Qed.

Lemma extract_numbers_sound (U : UnicodeDB) (text : str) (n : str) :
  In n (Base.extract_numbers U text) ->
  n <> [] /\ Forall (fun c => isdecimal U c = true) n /\ occurs_in n text.
Proof.
  unfold Base.extract_numbers. intros Hn.
  apply In_list_set, findall_sound in Hn as [Hm Ho].
  apply matches_Rep_inv in Hm as (Hall & Hlo & _).
  split; [destruct n; [simpl in Hlo; lia|done]|]. split; [|done].
  eapply Forall_impl; [exact Hall|]. intros c Hc. cbv beta in Hc.
  by rewrite in_cset_class in Hc.
Qed.

(** X9: the phone numbers [extract_phones] returns are distinct, occur in
    the text, and each is a prefix ([+880], [+88], [01], or one to three
    decimal digits after an optional [+]), at most one separator (a
    whitespace character or [-]) and 8 to 11 decimal digits: 9 to 16
    characters in all. *)
Theorem extract_phones_shape (U : UnicodeDB) (text : str) :
  NoDup (Base.extract_phones U text)
  /\ Forall (fun p =>
       occurs_in p text
       /\ (9 <= length p <= 16)%nat
       /\ exists prefix sep digits,
            p = prefix ++ sep ++ digits
            /\ (prefix = py "+880" \/ prefix = py "+88" \/ prefix = py "01"
                \/ exists plus ds,
                     prefix = plus ++ ds
                     /\ (plus = [] \/ plus = py "+")
                     /\ (1 <= length ds <= 3)%nat
                     /\ Forall (fun c => isdecimal U c = true) ds)
            /\ (sep = []
                \/ exists c, sep = [c] /\ (isspace c = true \/ c = chr "-"))
            /\ (8 <= length digits <= 11)%nat
            /\ Forall (fun c => isdecimal U c = true) digits)
       (Base.extract_phones U text).
Proof.
  unfold Base.extract_phones. split; [apply NoDup_remove_dups|].
  apply Forall_forall. intros p Hp.
  apply list_elem_of_In, In_list_set, findall_sound in Hp as [Hm Ho].
  split; [done|]. unfold Base.phone_pattern in Hm.
  apply matches_Cat_inv in Hm as (prefix & rest & -> & Hpre & Hrest).
  apply matches_Cat_inv in Hrest as (sep & digits & -> & Hsep & Hdig).
  apply matches_Rep_inv in Hsep as (Sall & _ & Shi).
  apply matches_Rep_inv in Hdig as (Dall & Dlo & Dhi). simpl in Shi, Dhi.
  assert (Forall (fun c => isdecimal U c = true) digits) as Hdigits.
  { eapply Forall_impl; [exact Dall|]. intros c Hc. cbv beta in Hc.
    by rewrite in_cset_class in Hc. }
  assert (sep = [] \/ exists c, sep = [c] /\ (isspace c = true \/ c = chr "-"))
    as Hs.
  { destruct sep as [|c [|d sep']]; [by left| |simpl in Shi; lia].
    right. exists c. split; [done|]. inversion_clear Sall as [|? ? Hc _].
    unfold in_cset in Hc. simpl in Hc. rewrite orb_false_r in Hc.
    apply orb_true_iff in Hc as [Hc|Hc]; [by left|right].
    by apply N.eqb_eq in Hc. }
  assert ((prefix = py "+880" \/ prefix = py "+88" \/ prefix = py "01"
           \/ exists plus ds,
                prefix = plus ++ ds
                /\ (plus = [] \/ plus = py "+")
                /\ (1 <= length ds <= 3)%nat
                /\ Forall (fun c => isdecimal U c = true) ds)) as Hprefix.
  { apply matches_Alt_inv in Hpre as [H|H];
      [apply matches_Lit in H; auto|].
    apply matches_Alt_inv in H as [H|H];
      [apply matches_Lit in H; auto|].
    apply matches_Alt_inv in H as [H|H];
      [apply matches_Lit in H; auto|].
    apply matches_Cat_inv in H as (plus & ds & -> & Hplus & Hds).
    apply matches_Rep_inv in Hplus as (Pall & _ & Phi).
    apply matches_Rep_inv in Hds as (Nall & Nlo & Nhi). simpl in Phi, Nhi.
    do 3 right. exists plus, ds. repeat split; [|done|done|].
    - destruct plus as [|c [|d plus']]; [by left| |simpl in Phi; lia].
      right. inversion_clear Pall as [|? ? Hc _].
      unfold in_cset in Hc. simpl in Hc. rewrite orb_false_r in Hc.
      apply N.eqb_eq in Hc. by subst.
    - eapply Forall_impl; [exact Nall|]. intros c Hc. cbv beta in Hc.
      by rewrite in_cset_class in Hc. }
  split; [|by exists prefix, sep, digits].
  rewrite !length_app.
  assert (1 <= length prefix <= 4)%nat.
  { destruct Hprefix as [->|[->|[->|(plus & ds & -> & Hpl & Hn & _)]]];
      [simpl; lia..|].
    rewrite length_app. destruct Hpl as [->| ->]; simpl; lia. }
  assert (length sep <= 1)%nat.
  { destruct Hs as [->|(c & -> & _)]; simpl; lia. }
  lia.
Qed.

Lemma scan_One cs s :
  scan (One cs) s 0
  = map (fun c => if in_cset cs c then Hit [c] else Gap c) s.
Proof.
  induction s as [|c s' IH]; [done|]. cbn [scan map]. rewrite match_at_One.
  destruct (in_cset cs c); cbn [length]; by rewrite IH.
Qed.

(** The pieces [re.split] cuts a text into at the characters of a set
    are free of these characters and occur in the text. *)
Lemma split_pieces_One cs s : forall cur l,
  Forall (fun c => in_cset cs c = false) cur ->
  In l (split_pieces
          (map (fun c => if in_cset cs c then Hit [c] else Gap c) s) cur) ->
  Forall (fun c => in_cset cs c = false) l /\ occurs_in l (rev cur ++ s).
Proof.
  induction s as [|c s' IH]; intros cur l Hcur Hin.
  - simpl in Hin. destruct Hin as [<-|[]]. split.
    + by apply Forall_rev.
    + exists [], []. by rewrite !app_nil_r.
  - simpl in Hin. destruct (in_cset cs c) eqn:Hc.
    + simpl in Hin. destruct Hin as [<-|Hin].
      * split; [by apply Forall_rev|]. by exists [], (c :: s').
      * apply (IH [] l) in Hin as [Hl (pre & post & E)]; [|constructor].
        split; [done|]. simpl in E. exists (rev cur ++ c :: pre), post.
        rewrite E. by rewrite <- !app_assoc.
    + apply (IH (c :: cur) l) in Hin as [Hl Ho]; [|by constructor].
      split; [done|]. simpl in Ho. by rewrite <- app_assoc in Ho.
Qed.

Lemma occurs_in_strip s : occurs_in (strip s) s.
Proof. destruct (strip_infix s) as (l1 & l2 & E). by exists l1, l2. Qed.

Lemma occurs_in_trans a b c : occurs_in a b -> occurs_in b c -> occurs_in a c.
Proof.
  intros (p1 & q1 & ->) (p2 & q2 & ->). exists (p2 ++ p1), (q1 ++ q2).
  by rewrite <- !app_assoc.
Qed.

(** X10: the addresses [extract_addresses] returns are distinct, occur in
    the text, contain neither a comma nor a period, and have no
    whitespace at either end. *)
Theorem extract_addresses_fragments (U : UnicodeDB) (text : str) :
  NoDup (Base.extract_addresses U text)
  /\ Forall (fun a =>
       occurs_in a text
       /\ strip a = a
       /\ Forall (fun c => c <> chr "," /\ c <> chr ".") a)
       (Base.extract_addresses U text).
Proof.
  split; [apply NoDup_remove_dups|].
  apply Forall_forall. intros a Ha.
  apply list_elem_of_In, extract_addresses_spec in Ha
    as (line & Hl & _ & _ & ->).
  unfold split in Hl. rewrite scan_One in Hl.
  apply split_pieces_One in Hl as [Hfree Ho]; [|constructor].
  simpl in Ho. split; [|split].
  - eapply occurs_in_trans; [apply occurs_in_strip|done].
  - apply strip_idem.
  - destruct (strip_infix line) as (l1 & l2 & E). rewrite E in Hfree.
    apply Forall_app in Hfree as [_ Hfree].
    apply Forall_app in Hfree as [Hfree _].
    eapply Forall_impl; [exact Hfree|]. intros c Hc. cbv beta in Hc.
    unfold in_cset in Hc. simpl in Hc. rewrite orb_false_r in Hc.
    apply orb_false_iff in Hc as [H1 H2].
    by apply N.eqb_neq in H1, H2.
Qed.

(** ** More on the [/process] endpoint of the base variant *)

Lemma lstrip_decompose s :
  exists l, s = l ++ lstrip s /\ Forall (fun c => isspace c = true) l.
Proof.
  induction s as [|c s' (l & IH & Hl)]; [by exists []|]. simpl.
  destruct (isspace c) eqn:Hc; [|by exists []].
  exists (c :: l). split; [simpl; by rewrite <- IH|by constructor].
Qed.

Lemma rstrip_decompose s :
  exists l, s = rstrip s ++ l /\ Forall (fun c => isspace c = true) l.
Proof.
  induction s as [|c s' (l & IH & Hl)]; [by exists []|]. simpl.
  destruct (rstrip s') as [|d t] eqn:E.
  - simpl in IH. subst l. destruct (isspace c) eqn:Hc.
    + exists (c :: s'). split; [done|by constructor].
    + by exists s'.
  - exists l. split; [|done]. simpl in *. by f_equal.
Qed.

Lemma py_split_ws_app_l l x :
  Forall (fun c => isspace c = true) l -> py_split (l ++ x) = py_split x.
Proof.
  induction 1 as [|c l' Hc _ IH]; [done|]. simpl. by rewrite py_split_ws.
Qed.

Lemma py_split_ws_app_r l x :
  Forall (fun c => isspace c = true) l -> py_split (x ++ l) = py_split x.
Proof.
  intros H. destruct H as [|c l' Hc Hl]; [by rewrite app_nil_r|].
  rewrite (py_split_app_ws c x l' Hc).
  rewrite <- (app_nil_r l'), (py_split_ws_app_l l' [] Hl). simpl.
  by rewrite app_nil_r.
Qed.

Lemma blank_ws cs l :
  Forall (fun c => isspace c = true) l ->
  Forall (fun c => isspace c = true) (blank cs l).
Proof.
  induction 1 as [|c l' Hc _ IH]; [constructor|]. simpl.
  constructor; [|done]. by destruct (in_cset cs c).
Qed.

Lemma normalise_ws_app_r cs x l :
  Forall (fun c => isspace c = true) l ->
  normalise cs (x ++ l) = normalise cs x.
Proof.
  intros H. rewrite !normalise_words. f_equal. unfold blank.
  rewrite map_app. fold (blank cs x) (blank cs l).
  by rewrite py_split_ws_app_r by by apply blank_ws.
Qed.

(** Stripping a text first does not change what it is cleaned to. *)
Lemma normalise_strip cs s : normalise cs (strip s) = normalise cs s.
Proof.
  rewrite !normalise_words. f_equal. unfold strip.
  destruct (lstrip_decompose s) as (l1 & E1 & H1).
  destruct (rstrip_decompose (lstrip s)) as (l2 & E2 & H2).
  rewrite E1 at 2. rewrite E2 at 2. unfold blank. rewrite !map_app.
  fold (blank cs l1) (blank cs l2) (blank cs (rstrip (lstrip s))).
  rewrite py_split_ws_app_l by by apply blank_ws.
  by rewrite py_split_ws_app_r by by apply blank_ws.
Qed.

Section more_process.

Context {bbox conf mat : Type}.
Variable E : Engines bbox conf mat.
Variable U : UnicodeDB.

Lemma process_invalid_file_type
    (f : FileStorage) (text : option str) (w : World) :
  truthy (filename f) = true ->
  existsb (endswith (lower U (filename f))) Base.allowed_extensions = false ->
  Base.process_visiting_card E U
    {| form_text := text; files_image := Some f |} w
  = (inr {| status := 400; json := JError (py "Invalid file type") |}, w).
Proof.
  intros Hname Hext. unfold Base.process_visiting_card.
  cbn [form_text files_image file_truthy]. rewrite Hname.
  cbn [negb]. rewrite andb_false_r.
  unfold bind, Base.image_branch. by rewrite Hname, Hext.
Qed.

(** The combined text of a request: the cleaned parts that are not empty,
    joined by single spaces. *)
Lemma combined_text_parts (parts : list str) (text_input : str) :
  let combined_text := join (py " ") parts in
  (if truthy (strip text_input)
   then normalise Base.not_allowed
          (strip (combined_text ++ py " "
                  ++ normalise Base.not_allowed (strip text_input)))
   else normalise Base.not_allowed combined_text)
  = join (py " ")
      (List.filter truthy
         (map (normalise Base.not_allowed) (parts ++ [text_input]))).
Proof.
  intros combined_text.
  assert (normalise Base.not_allowed
            (combined_text ++ py " " ++ normalise Base.not_allowed text_input)
          = join (py " ") (List.filter truthy
              (map (normalise Base.not_allowed) (parts ++ [text_input]))))
    as Hjoin.
  { change (combined_text ++ py " " ++ normalise Base.not_allowed text_input)
      with (join [32] [combined_text; normalise Base.not_allowed text_input]).
    rewrite (normalise_join _ 32 _ eq_refl). cbn [map].
    rewrite (normalise_idem _ _ base_not_allowed_spec allowed_english_not_ws).
    unfold combined_text. rewrite (normalise_join _ 32 parts eq_refl).
    rewrite map_app, List.filter_app. cbn [map].
    set (ps := List.filter truthy (map (normalise Base.not_allowed) parts)).
    set (nx := normalise Base.not_allowed text_input).
    assert (Forall (fun w : str => w <> []) ps) as Hps
      by apply filter_truthy_nonempty.
    destruct (join (py " ") ps) as [|c j] eqn:Ej.
    - apply join_nil_words in Ej as ->; [|done]. by destruct nx.
    - cbn [List.filter truthy]. destruct nx as [|d nx'].
      + cbn [List.filter truthy]. rewrite app_nil_r. simpl. by rewrite Ej.
      + cbn [List.filter truthy].
        rewrite join_app_words; [|by destruct ps|done]. simpl. by rewrite Ej. }
  rewrite <- Hjoin. destruct (truthy (strip text_input)) eqn:Ht.
  - by rewrite normalise_strip, normalise_strip.
  - assert (normalise Base.not_allowed text_input = []) as ->.
    { rewrite <- normalise_strip. by destruct (strip text_input). }
    symmetry. apply normalise_ws_app_r. by repeat constructor.
Qed.

Lemma process_no_input (request : Request) (w : World) :
  truthy (strip (default [] (form_text request))) = false ->
  file_truthy (files_image request) = false ->
  Base.process_visiting_card E U request w = (inr Base.no_input, w).
Proof.
  intros Ht Hf. unfold Base.process_visiting_card. by rewrite Ht, Hf.
Qed.

Lemma image_branch_no_image (image_file : option FileStorage) (w : World) :
  file_truthy image_file = false ->
  Base.image_branch E U image_file w = (inr (inr ([], [])), w).
Proof.
  intros Hf. unfold Base.image_branch. destruct image_file as [f|]; [|done].
  simpl in Hf. by rewrite Hf.
Qed.

Lemma process_text_only (request : Request) (w : World) :
  truthy (strip (default [] (form_text request))) = true ->
  file_truthy (files_image request) = false ->
  Base.process_visiting_card E U request w
  = (inr (card_response U []
            (normalise Base.not_allowed (default [] (form_text request)))),
     w).
Proof.
  intros Ht Hf. unfold Base.process_visiting_card. rewrite Ht. cbn [negb andb].
  unfold bind at 1. rewrite (image_branch_no_image _ w Hf).
  unfold bind, lift, ret. rewrite !base_clean_normalise.
  pose proof (combined_text_parts [] (default [] (form_text request))) as Hc.
  rewrite Ht in Hc. cbv zeta in Hc. cbn [join app map] in Hc.
  cbn [app]. rewrite Hc. unfold card_response.
  by destruct (normalise Base.not_allowed (default [] (form_text request))).
Qed.

Lemma process_image_ok (f : FileStorage) (text : option str) (w : World) dets :
  truthy (filename f) = true ->
  existsb (endswith (lower U (filename f))) Base.allowed_extensions = true ->
  makedirs_error (disk E) (py "uploads") = None ->
  save_error (disk E) (os_path_join (py "uploads") (filename f)) (stream f)
  = None ->
  easy_readtext E (Some (stream f)) = inr dets ->
  let clean := normalise Base.not_allowed in
  let easy_raw := join nl (map (fun t => snd (fst t)) dets) in
  let tesseract_raw :=
    raw_or_empty (image_to_string E None (cv2_imread E (Some (stream f)))) in
  let paddle_raw := paddle_raw (paddle_ocr E (Some (stream f))) in
  Base.process_visiting_card E U
    {| form_text := text; files_image := Some f |} w
  = (inr (card_response U
       [(py "easyocr", {| raw := easy_raw; cleaned := clean easy_raw |});
        (py "tesseract",
         {| raw := tesseract_raw; cleaned := clean tesseract_raw |});
        (py "paddleocr", {| raw := paddle_raw; cleaned := clean paddle_raw |})]
       (join (py " ")
          (List.filter truthy
             [clean easy_raw; clean tesseract_raw; clean paddle_raw;
              clean (default [] text)]))),
     after_engines
       (realpath (disk E) (os_path_join (py "uploads") (filename f))) w).
Proof.
  intros Hname Hext Hdir Hsave Heasy clean easy_raw tesseract_raw praw.
  unfold Base.process_visiting_card. cbn [form_text files_image file_truthy].
  rewrite Hname. cbn [negb]. rewrite andb_false_r.
  unfold bind at 1.
  rewrite (image_branch_completes E U f w dets Hname Hext Hdir Hsave Heasy).
  fold easy_raw tesseract_raw praw clean.
  pose proof (combined_text_parts
                [clean easy_raw; clean tesseract_raw; clean praw]
                (default [] text)) as Hc.
  cbv zeta in Hc. cbn [join app map] in Hc. fold clean in Hc.
  unfold clean at 1 2 3 in Hc.
  rewrite !(normalise_idem _ _ base_not_allowed_spec allowed_english_not_ws)
    in Hc.
  fold clean in Hc. rewrite <- Hc. unfold card_response.
  destruct (truthy (strip (default [] text)));
    unfold bind, lift, ret; rewrite !base_clean_normalise; fold clean;
    by rewrite <- ?app_assoc.
Qed.

Lemma process_easyocr_raises (f : FileStorage) (text : option str) (w : World) e :
  truthy (filename f) = true ->
  existsb (endswith (lower U (filename f))) Base.allowed_extensions = true ->
  makedirs_error (disk E) (py "uploads") = None ->
  save_error (disk E) (os_path_join (py "uploads") (filename f)) (stream f)
  = None ->
  easy_readtext E (Some (stream f)) = inl e ->
  Base.process_visiting_card E U
    {| form_text := text; files_image := Some f |} w
  = (if is_Exception e then inr (Base.ocr_failed e) else inl e,
     after_easyocr_raised
       (realpath (disk E) (os_path_join (py "uploads") (filename f)))
       (stream f) w).
Proof.
  intros Hname Hext Hdir Hsave Heasy.
  unfold Base.process_visiting_card. cbn [form_text files_image file_truthy].
  rewrite Hname. cbn [negb]. rewrite andb_false_r.
  unfold bind at 1. unfold Base.image_branch. rewrite Hname, Hext. cbn [negb].
  unfold bind at 1. unfold os_makedirs at 1. rewrite Hdir.
  unfold bind at 1. unfold save at 1. rewrite Hsave.
  unfold try_except_Exception, Base.run_engines.
  unfold bind at 1. unfold bind at 1. unfold readtext, invoke. cbn [fs calls].
  rewrite lookup_insert_eq, Heasy. by destruct (is_Exception e).
Qed.

(** What [os.makedirs] or [save] raise is raised before the [try]: it
    leaves the handler, with no engine invoked. *)
Lemma process_makedirs_raises (f : FileStorage) (text : option str) (w : World) e :
  truthy (filename f) = true ->
  existsb (endswith (lower U (filename f))) Base.allowed_extensions = true ->
  makedirs_error (disk E) (py "uploads") = Some e ->
  Base.process_visiting_card E U
    {| form_text := text; files_image := Some f |} w
  = (inl e, w).
Proof.
  intros Hname Hext Hdir.
  unfold Base.process_visiting_card. cbn [form_text files_image file_truthy].
  rewrite Hname. cbn [negb]. rewrite andb_false_r.
  unfold bind at 1. unfold Base.image_branch. rewrite Hname, Hext. cbn [negb].
  unfold bind at 1. unfold os_makedirs at 1. by rewrite Hdir.
Qed.

Lemma process_save_raises
    (f : FileStorage) (text : option str) (w : World) e remains :
  truthy (filename f) = true ->
  existsb (endswith (lower U (filename f))) Base.allowed_extensions = true ->
  makedirs_error (disk E) (py "uploads") = None ->
  save_error (disk E) (os_path_join (py "uploads") (filename f)) (stream f)
  = Some (e, remains) ->
  Base.process_visiting_card E U
    {| form_text := text; files_image := Some f |} w
  = (inl e,
     broken_off (realpath (disk E) (os_path_join (py "uploads") (filename f)))
       remains w).
Proof.
  intros Hname Hext Hdir Hsave.
  unfold Base.process_visiting_card. cbn [form_text files_image file_truthy].
  rewrite Hname. cbn [negb]. rewrite andb_false_r.
  unfold bind at 1. unfold Base.image_branch. rewrite Hname, Hext. cbn [negb].
  unfold bind at 1. unfold os_makedirs at 1. rewrite Hdir.
  unfold bind at 1. unfold save at 1. by rewrite Hsave.
Qed.

(** X11: an upload whose name does not end in [.png], [.jpg], [.jpeg] or
    [.bmp], in any case, is answered with status 400 "Invalid file type",
    with or without text; nothing is saved and no engine is invoked. *)
Theorem invalid_file_type_rejected
    (f : FileStorage) (text : option str) (w : World) :
  truthy (filename f) = true ->
  existsb (endswith (lower U (filename f))) Base.allowed_extensions = false ->
  Base.process_visiting_card E U
    {| form_text := text; files_image := Some f |} w
  = (inr {| status := 400; json := JError (py "Invalid file type") |}, w).
Proof. apply process_invalid_file_type. Qed.

(** X12: a request whose text is not all whitespace and that has no
    image, or an upload without a file name, is answered with status 200,
    no engine results and the cleaned text as combined text, from which
    the four collections are extracted; the world is left as it was. *)
Theorem text_only_card (request : Request) (text : str) (w : World) :
  form_text request = Some text ->
  file_truthy (files_image request) = false ->
  Exists (fun c => isspace c = false) text ->
  exists cleaned,
    Base.clean_text_regex (Some text) = inr cleaned
    /\ Base.process_visiting_card E U request w
       = (inr (card_response U [] cleaned), w).
Proof.
  intros Hform Hf Hn. exists (normalise Base.not_allowed text).
  split; [apply base_clean_normalise|].
  rewrite process_text_only; rewrite ?Hform; [done| |done].
  by apply truthy_strip.
Qed.


(** X14: if what EasyOCR raises are [Exception]s, the only errors that
    leave the base handler are those of [os.makedirs] and of
    [image_file.save], which come before the [try]: they leave it as they
    were raised, with no engine invoked.  To every other request the
    handler gives an answer, with status 200, 400 or 500. *)
Theorem process_visiting_card_answers (request : Request) (w : World) :
  (forall content e, easy_readtext E content = inl e -> is_Exception e = true) ->
  (exists response w',
     Base.process_visiting_card E U request w = (inr response, w')
     /\ (status response = 200 \/ status response = 400
         \/ status response = 500))
  \/ (exists f e w',
        files_image request = Some f
        /\ (makedirs_error (disk E) (py "uploads") = Some e
            \/ exists remains,
                 save_error (disk E)
                   (os_path_join (py "uploads") (filename f)) (stream f)
                 = Some (e, remains))
        /\ Base.process_visiting_card E U request w = (inl e, w')
        /\ calls w' = calls w).
Proof.
  intros Hexc. destruct request as [text image].
  destruct (file_truthy image) eqn:Hf.
  - destruct image as [f|]; [|done]. simpl in Hf.
    destruct (existsb (endswith (lower U (filename f)))
                Base.allowed_extensions) eqn:Hext.
    + destruct (makedirs_error (disk E) (py "uploads")) as [e|] eqn:Hdir.
      { right. exists f, e, w. split; [done|]. split; [by left|].
        split; [by apply process_makedirs_raises|done]. }
      destruct (save_error (disk E)
                  (os_path_join (py "uploads") (filename f)) (stream f))
        as [[e remains]|] eqn:Hsave.
      { right. eexists f, e, _. split; [done|]. split; [right; by exists remains|].
        split; [by apply process_save_raises|]. by destruct remains. }
      left.
      destruct (easy_readtext E (Some (stream f))) as [e|dets] eqn:Heasy.
      * rewrite (process_easyocr_raises f text w e Hf Hext Hdir Hsave Heasy).
        rewrite (Hexc _ _ Heasy). eexists _, _. split; [done|]. auto.
      * rewrite (process_image_ok f text w dets Hf Hext Hdir Hsave Heasy).
        eexists _, _. split; [done|]. auto.
    + left. rewrite (process_invalid_file_type f text w Hf Hext).
      eexists _, _. split; [done|]. auto.
  - left. destruct (truthy (strip (default [] text))) eqn:Ht.
    + rewrite process_text_only by done. eexists _, _. split; [done|]. auto.
    + rewrite process_no_input by done. eexists _, _. split; [done|]. auto.
Qed.

Lemma combined_parts_canonical (parts : list str) (text_input : str) :
  canonical allowed_english
    (join (py " ")
       (List.filter truthy
          (map (normalise Base.not_allowed) (parts ++ [text_input])))).
Proof.
  rewrite <- combined_text_parts. cbv zeta.
  destruct (truthy (strip text_input));
    apply normalise_canonical;
    auto using base_not_allowed_spec, allowed_english_not_ws.
Qed.

Lemma ok_response_shape
    (request : Request) (w w' : World) (response : Response) :
  Base.process_visiting_card E U request w = (inr response, w') ->
  status response = 200 ->
  exists ocr_results combined,
    response = card_response U ocr_results combined
    /\ canonical allowed_english combined
    /\ Forall (fun item =>
                 Base.clean_text_regex (Some (raw (snd item)))
                 = inr (cleaned (snd item))
                 /\ canonical allowed_english (cleaned (snd item)))
              ocr_results.
Proof.
  intros Hrun Hok. destruct request as [text image].
  assert (forall s, canonical allowed_english (normalise Base.not_allowed s))
    as Hcanon.
  { intros s. apply normalise_canonical;
      auto using base_not_allowed_spec, allowed_english_not_ws. }
  destruct (file_truthy image) eqn:Hf.
  - destruct image as [f|]; [|done]. simpl in Hf.
    destruct (existsb (endswith (lower U (filename f)))
                Base.allowed_extensions) eqn:Hext.
    + destruct (makedirs_error (disk E) (py "uploads")) as [e|] eqn:Hdir.
      { by rewrite (process_makedirs_raises f text w e Hf Hext Hdir) in Hrun. }
      destruct (save_error (disk E)
                  (os_path_join (py "uploads") (filename f)) (stream f))
        as [[e remains]|] eqn:Hsave.
      { by rewrite (process_save_raises f text w e remains Hf Hext Hdir Hsave)
          in Hrun. }
      destruct (easy_readtext E (Some (stream f))) as [e|dets] eqn:Heasy.
      * rewrite (process_easyocr_raises f text w e Hf Hext Hdir Hsave Heasy)
          in Hrun.
        destruct (is_Exception e); [|done]. by injection Hrun as <- <-.
      * rewrite (process_image_ok f text w dets Hf Hext Hdir Hsave Heasy)
          in Hrun.
        injection Hrun as <- <-. eexists _, _. split; [done|]. split.
        { apply (combined_parts_canonical [_; _; _]). }
        repeat constructor; cbn [snd raw cleaned];
          first [apply base_clean_normalise | apply Hcanon].
    + rewrite (process_invalid_file_type f text w Hf Hext) in Hrun.
      by injection Hrun as <- <-.
  - destruct (truthy (strip (default [] text))) eqn:Ht.
    + rewrite process_text_only in Hrun by done. injection Hrun as <- <-.
      eexists _, _. split; [done|]. split; [apply Hcanon|constructor].
    + rewrite process_no_input in Hrun by done. by injection Hrun as <- <-.
Qed.

(** X15: in every answer with status 200 of the base handler the combined
    text is in the normaliser's canonical form (only allow-list characters
    and single ASCII spaces, trimmed), the four collections are extracted
    from it, and every engine entry carries its raw text and that text
    cleaned. *)
Theorem ok_response_canonical
    (request : Request) (w w' : World) (response : Response) :
  Base.process_visiting_card E U request w = (inr response, w') ->
  status response = 200 ->
  exists ocr_results combined,
    response = card_response U ocr_results combined
    /\ canonical allowed_english combined
    /\ Forall (fun item =>
                 Base.clean_text_regex (Some (raw (snd item)))
                 = inr (cleaned (snd item))
                 /\ canonical allowed_english (cleaned (snd item)))
              ocr_results.
Proof. apply ok_response_shape. Qed.

(** X22: in every answer with status 200 of the base handler the
    extracted numbers are non-empty strings of the ASCII digits [0] to
    [9], whatever the interpreter's Unicode tables hold: digits of other
    scripts do not survive the normaliser. *)
Theorem ok_response_numbers_ascii
    (request : Request) (w w' : World) (response : Response) :
  Base.process_visiting_card E U request w = (inr response, w') ->
  status response = 200 ->
  exists ocr_results combined extracted,
    json response = JCard ocr_results combined extracted
    /\ Forall (fun n => n <> [] /\ Forall (fun c => is_digit c = true) n)
              (numbers extracted).
Proof.
  intros Hrun Hok.
  destruct (ok_response_shape request w w' response Hrun Hok)
    as (ocr & combined & -> & (Hchars & _) & _).
  eexists _, _, _. split; [reflexivity|]. cbn [numbers].
  apply Forall_forall. intros n Hn.
  apply list_elem_of_In, extract_numbers_sound in Hn
    as (Hne & Hdec & (pre & post & Ho)).
  split; [done|]. rewrite Ho in Hchars.
  apply Forall_app in Hchars as [_ Hchars].
  apply Forall_app in Hchars as [Hchars _].
  rewrite Forall_forall in Hchars, Hdec. apply Forall_forall. intros c Hc.
  specialize (Hchars c Hc). specialize (Hdec c Hc). cbv beta in *.
  assert (c < 128) as Hascii.
  { destruct Hchars as [Ha| ->]; [|done].
    unfold allowed_english, is_letter, is_digit in Ha. cbn [existsb] in Ha.
    chr_values. bool_to_prop. lia. }
  unfold isdecimal in Hdec. unfold is_digit.
  apply N.leb_gt in Hascii. by rewrite Hascii, orb_false_r in Hdec.
Qed.

(** X16: when the upload is saved and EasyOCR raises on it, the answer
    is status 500 "OCR failed: <message>" if the error is an [Exception],
    and else the error leaves the handler; either way the upload stays on
    disk and neither Tesseract nor Paddle is invoked. *)
Theorem easyocr_error_outcome
    (f : FileStorage) (text : option str) (w : World) (e : exn) :
  truthy (filename f) = true ->
  existsb (endswith (lower U (filename f))) Base.allowed_extensions = true ->
  makedirs_error (disk E) (py "uploads") = None ->
  save_error (disk E) (os_path_join (py "uploads") (filename f)) (stream f)
  = None ->
  easy_readtext E (Some (stream f)) = inl e ->
  let p := os_path_join (py "uploads") (filename f) in
  let out := Base.process_visiting_card E U
               {| form_text := text; files_image := Some f |} w in
  fst out = (if is_Exception e
             then inr {| status := 500;
                         json := JError (py "OCR failed: " ++ exn_str e) |}
             else inl e)
  /\ fs (snd out) !! realpath (disk E) p = Some (stream f)
  /\ calls (snd out) = calls w ++ [py "easyocr"].
Proof.
  intros Hname Hext Hdir Hsave Heasy p out. unfold out.
  rewrite (process_easyocr_raises f text w e Hname Hext Hdir Hsave Heasy).
  cbn [fst snd after_easyocr_raised fs calls].
  split; [done|]. split; [|done]. apply lookup_insert_eq.
Qed.


(** X23: what [os.makedirs] or [image_file.save] raises - the upload
    directory cannot be made, the file name points into a directory that
    is missing or names a directory, the disk is full - leaves the base
    handler as it was raised: no answer is given and no engine is invoked.
    When it is [os.makedirs] that raises, nothing is written; when it is
    [save], the file holds what the broken-off writing left there and
    every other file is as it was. *)
Theorem save_error_escapes
    (f : FileStorage) (text : option str) (w : World) (e : exn)
    (remains : option bytes) :
  truthy (filename f) = true ->
  existsb (endswith (lower U (filename f))) Base.allowed_extensions = true ->
  let file := realpath (disk E) (os_path_join (py "uploads") (filename f)) in
  let out := Base.process_visiting_card E U
               {| form_text := text; files_image := Some f |} w in
  (makedirs_error (disk E) (py "uploads") = Some e -> out = (inl e, w))
  /\ (makedirs_error (disk E) (py "uploads") = None ->
      save_error (disk E) (os_path_join (py "uploads") (filename f)) (stream f)
      = Some (e, remains) ->
      out = (inl e, broken_off file remains w)
      /\ calls (broken_off file remains w) = calls w
      /\ (remains = None -> broken_off file remains w = w)
      /\ forall other : path,
           other <> file -> fs (broken_off file remains w) !! other = fs w !! other).
Proof.
  intros Hname Hext file out. split.
  - intros Hdir. by apply process_makedirs_raises.
  - intros Hdir Hsave. split; [by apply process_save_raises|].
    destruct remains as [part|]; cbn [broken_off fs calls]; repeat split; try done.
    intros other Hother. by apply lookup_insert_ne.
Qed.

End more_process.

(** An upload named [notes.txt], sent together with a text. *)
Lemma invalid_file_type_rejected_witness :
  truthy (filename notes_txt) = true
  /\ existsb (endswith (lower ascii_db (filename notes_txt)))
       Base.allowed_extensions = false
  /\ Base.process_visiting_card engines_others_fail ascii_db
       {| form_text := Some (py "ACME"); files_image := Some notes_txt |}
       empty_world
     = (inr {| status := 400; json := JError (py "Invalid file type") |},
        empty_world).
Proof.
  assert (truthy (filename notes_txt) = true) as H1 by reflexivity.
  assert (existsb (endswith (lower ascii_db (filename notes_txt)))
            Base.allowed_extensions = false) as H2 by reflexivity.
  split; [exact H1|]. split; [exact H2|].
  exact (invalid_file_type_rejected engines_others_fail ascii_db notes_txt
           (Some (py "ACME")) empty_world H1 H2).
Defined.

(** A text with a phone number and an upload without a file name. *)
Lemma text_only_card_witness :
  form_text nameless_upload_request = Some (py "Call 01712345678")
  /\ file_truthy (files_image nameless_upload_request) = false
  /\ Exists (fun c => isspace c = false) (py "Call 01712345678")
  /\ exists cleaned,
       Base.clean_text_regex (Some (py "Call 01712345678")) = inr cleaned
       /\ Base.process_visiting_card engines_others_fail ascii_db
            nameless_upload_request empty_world
          = (inr (card_response ascii_db [] cleaned), empty_world).
Proof.
  assert (form_text nameless_upload_request = Some (py "Call 01712345678"))
    as H1 by reflexivity.
  assert (file_truthy (files_image nameless_upload_request) = false)
    as H2 by reflexivity.
  assert (Exists (fun c => isspace c = false) (py "Call 01712345678"))
    as H3 by (by left).
  split; [exact H1|]. split; [exact H2|]. split; [exact H3|].
  exact (text_only_card engines_others_fail ascii_db nameless_upload_request
           (py "Call 01712345678") empty_world H1 H2 H3).
Defined.


(** EasyOCR raising a [ValueError]-like exception on every image. *)
Lemma process_visiting_card_answers_witness :
  (forall content e,
     easy_readtext engines_easy_fails content = inl e ->
     is_Exception e = true)
  /\ ((exists response w',
         Base.process_visiting_card engines_easy_fails ascii_db card_request
           empty_world = (inr response, w')
         /\ (status response = 200 \/ status response = 400
             \/ status response = 500))
      \/ (exists f e w',
            files_image card_request = Some f
            /\ (makedirs_error (disk engines_easy_fails) (py "uploads")
                = Some e
                \/ exists remains,
                     save_error (disk engines_easy_fails)
                       (os_path_join (py "uploads") (filename f)) (stream f)
                     = Some (e, remains))
            /\ Base.process_visiting_card engines_easy_fails ascii_db
                 card_request empty_world = (inl e, w')
            /\ calls w' = calls empty_world)).
Proof.
  assert (forall content e,
            easy_readtext engines_easy_fails content = inl e ->
            is_Exception e = true) as H
    by (intros content e [= <-]; reflexivity).
  split; [exact H|].
  exact (process_visiting_card_answers engines_easy_fails ascii_db
           card_request empty_world H).
Defined.

(** The answer to the text "Dhaka 1212". *)
Lemma ok_response_canonical_witness :
  Base.process_visiting_card engines_easy_fails ascii_db
    (text_request (py "Dhaka  1212")) empty_world
  = (inr (card_response ascii_db [] (py "Dhaka 1212")), empty_world)
  /\ status (card_response ascii_db [] (py "Dhaka 1212")) = 200
  /\ exists ocr_results combined,
       card_response ascii_db [] (py "Dhaka 1212")
       = card_response ascii_db ocr_results combined
       /\ canonical allowed_english combined.
Proof.
  assert (Base.process_visiting_card engines_easy_fails ascii_db
            (text_request (py "Dhaka  1212")) empty_world
          = (inr (card_response ascii_db [] (py "Dhaka 1212")), empty_world))
    as H1 by (vm_compute; reflexivity).
  assert (status (card_response ascii_db [] (py "Dhaka 1212")) = 200)
    as H2 by reflexivity.
  split; [exact H1|]. split; [exact H2|].
  destruct (ok_response_canonical engines_easy_fails ascii_db _ _ _ _ H1 H2)
    as (ocr & combined & Hr & Hc & _).
  exists ocr, combined. split; [exact Hr|exact Hc].
Defined.

(** EasyOCR raising on [Card.PNG]. *)
Lemma easyocr_error_outcome_witness :
  truthy (filename card_png) = true
  /\ existsb (endswith (lower ascii_db (filename card_png)))
       Base.allowed_extensions = true
  /\ makedirs_error (disk engines_easy_fails) (py "uploads") = None
  /\ save_error (disk engines_easy_fails)
       (os_path_join (py "uploads") (filename card_png)) (stream card_png)
     = None
  /\ easy_readtext engines_easy_fails (Some (stream card_png))
     = inl corrupt_image
  /\ fs (snd (Base.process_visiting_card engines_easy_fails ascii_db
                card_request empty_world))
       !! realpath (disk engines_easy_fails)
            (os_path_join (py "uploads") (filename card_png))
     = Some (stream card_png).
Proof.
  assert (truthy (filename card_png) = true) as H1 by reflexivity.
  assert (existsb (endswith (lower ascii_db (filename card_png)))
            Base.allowed_extensions = true) as H2 by reflexivity.
  assert (makedirs_error (disk engines_easy_fails) (py "uploads") = None)
    as Hd by reflexivity.
  assert (save_error (disk engines_easy_fails)
            (os_path_join (py "uploads") (filename card_png))
            (stream card_png) = None) as Hs by reflexivity.
  assert (easy_readtext engines_easy_fails (Some (stream card_png))
          = inl corrupt_image) as H3 by reflexivity.
  split; [exact H1|]. split; [exact H2|]. split; [exact Hd|].
  split; [exact Hs|]. split; [exact H3|].
  exact (proj1 (proj2 (easyocr_error_outcome engines_easy_fails ascii_db
                         card_png None empty_world corrupt_image
                         H1 H2 Hd Hs H3))).
Defined.


(** [sub/x.png] uploaded to a disk without the directory
    [uploads/sub]. *)
Lemma save_error_escapes_witness :
  truthy (filename sub_x_png) = true
  /\ existsb (endswith (lower ascii_db (filename sub_x_png)))
       Base.allowed_extensions = true
  /\ makedirs_error (disk engines_without_sub) (py "uploads") = None
  /\ save_error (disk engines_without_sub)
       (os_path_join (py "uploads") (filename sub_x_png)) (stream sub_x_png)
     = Some (FileNotFoundError (py "uploads/sub/x.png"), None)
  /\ Base.process_visiting_card engines_without_sub ascii_db
       {| form_text := None; files_image := Some sub_x_png |} empty_world
     = (inl (FileNotFoundError (py "uploads/sub/x.png")),
        broken_off
          (realpath (disk engines_without_sub)
             (os_path_join (py "uploads") (filename sub_x_png)))
          None empty_world).
Proof.
  assert (truthy (filename sub_x_png) = true) as H1 by reflexivity.
  assert (existsb (endswith (lower ascii_db (filename sub_x_png)))
            Base.allowed_extensions = true) as H2 by reflexivity.
  assert (makedirs_error (disk engines_without_sub) (py "uploads") = None)
    as H3 by reflexivity.
  assert (save_error (disk engines_without_sub)
            (os_path_join (py "uploads") (filename sub_x_png))
            (stream sub_x_png)
          = Some (FileNotFoundError (py "uploads/sub/x.png"), None))
    as H4 by reflexivity.
  split; [exact H1|]. split; [exact H2|]. split; [exact H3|].
  split; [exact H4|].
  exact (proj1 (proj2 (save_error_escapes engines_without_sub ascii_db
                         sub_x_png None empty_world _ _ H1 H2) H3 H4)).
Defined.

(** ** The Paddle adapter *)

Lemma paddle_texts_blocks {bbox conf : Type}
    (res : list (option (list (bbox * (str * conf))))) :
  paddle_texts res
  = if has_none res then inl TypeError_not_iterable else inr (block_texts res).
Proof.
  induction res as [|[block|] res' IH]; [done| |done].
  cbn [paddle_texts]. rewrite IH. unfold has_none, block_texts. simpl.
  by destruct (existsb _ res').
Qed.

Section paddle_adapter.

Context {bbox conf mat : Type}.
Variable E : Engines bbox conf mat.

(** X18: when Paddle returns, the adapter gives the texts of all lines,
    block after block, joined by newlines - unless one block is [None]
    (Paddle found no text), in which case it gives the empty string and
    the texts of the other blocks are dropped.  The files are left alone
    and the engine is invoked once. *)
Theorem ocr_with_paddle_flattens
    (p : path) (w : World) (res : list (option (list (bbox * (str * conf))))) :
  paddle_ocr E (fs w !! realpath (disk E) p) = inr res ->
  Base.ocr_with_paddle E p w
  = (inr (if has_none res then [] else join nl (block_texts res)),
     {| fs := fs w; calls := calls w ++ [py "paddleocr"] |}).
Proof.
  intros H. rewrite base_ocr_with_paddle, H. unfold paddle_raw.
  rewrite paddle_texts_blocks. by destruct (has_none res).
Qed.

End paddle_adapter.

(** Two blocks, of two lines and of one. *)
Lemma ocr_with_paddle_flattens_witness :
  paddle_ocr engines_paddle_blocks
    (fs busy_world
       !! realpath (disk engines_paddle_blocks) (py "uploads/Card.PNG"))
  = inr [Some [(tt, (py "ACME Ltd", tt)); (tt, (py "Dhaka", tt))];
         Some [(tt, (py "x@y.com", tt))]]
  /\ fst (Base.ocr_with_paddle engines_paddle_blocks (py "uploads/Card.PNG")
            busy_world)
     = inr (join nl [py "ACME Ltd"; py "Dhaka"; py "x@y.com"]).
Proof.
  assert (paddle_ocr engines_paddle_blocks
            (fs busy_world
               !! realpath (disk engines_paddle_blocks)
                    (py "uploads/Card.PNG"))
          = inr [Some [(tt, (py "ACME Ltd", tt)); (tt, (py "Dhaka", tt))];
                 Some [(tt, (py "x@y.com", tt))]]) as H by reflexivity.
  split; [exact H|].
  exact (f_equal fst (ocr_with_paddle_flattens engines_paddle_blocks
                        (py "uploads/Card.PNG") busy_world _ H)).
Defined.

(** ** The [/process] endpoint of the bilingual variant *)

Section bilingual_process.

Context {bbox conf mat : Type}.
Variable E : Engines bbox conf mat.

Lemma bilingual_ocr_with_tesseract p w :
  Bilingual.ocr_with_tesseract E p w
  = (image_to_string E (Some (py "--oem 3 --psm 6 -l eng+ben"))
       (cv2_imread E (fs w !! realpath (disk E) p)),
     {| fs := fs w; calls := calls w ++ [py "tesseract"] |}).
Proof. done. Qed.

(** X19: the bilingual handler answers a request without an image, or
    with an upload without a file name, with status 400 "Image is
    required", whatever text it carries, and leaves the world as it
    was. *)
Theorem process_document_requires_image (request : Request) (w : World) :
  file_truthy (files_image request) = false ->
  Bilingual.process_document E request w
  = (inr {| status := 400; json := JError (py "Image is required") |}, w).
Proof.
  intros Hf. unfold Bilingual.process_document.
  destruct (files_image request) as [f|]; [|done].
  simpl in Hf. by rewrite Hf.
Qed.


(** X21: in the bilingual handler an error of an engine is not caught:
    when the upload directory can be made and the upload is written, the
    error leaves the handler as it was raised, the file the upload was
    written to stays on disk, and when it is EasyOCR that raises,
    Tesseract is not invoked. *)
Theorem process_document_engine_error
    (request : Request) (f : FileStorage) (w : World) (e : exn) :
  files_image request = Some f ->
  truthy (filename f) = true ->
  makedirs_error (disk E) (py "uploads") = None ->
  save_error (disk E) (os_path_join (py "uploads") (filename f)) (stream f)
  = None ->
  let p := realpath (disk E) (os_path_join (py "uploads") (filename f)) in
  let tess := image_to_string E (Some (py "--oem 3 --psm 6 -l eng+ben"))
                (cv2_imread E (Some (stream f))) in
  (easy_readtext E (Some (stream f)) = inl e ->
   Bilingual.process_document E request w
   = (inl e, after_saved p (stream f) [py "easyocr"] w))
  /\ (forall dets,
        easy_readtext E (Some (stream f)) = inr dets -> tess = inl e ->
        Bilingual.process_document E request w
        = (inl e, after_saved p (stream f) [py "easyocr"; py "tesseract"] w))
  /\ forall names, fs (after_saved p (stream f) names w) !! p = Some (stream f).
Proof.
  intros Himg Hname Hd Hs p tess. repeat split.
  - intros Heasy. unfold Bilingual.process_document. rewrite Himg, Hname.
    unfold bind at 1. unfold os_makedirs at 1. rewrite Hd.
    unfold bind at 1. unfold save at 1. rewrite Hs. fold p.
    unfold bind at 1. unfold readtext, invoke. cbn [fs calls]. fold p.
    by rewrite lookup_insert_eq, Heasy.
  - intros dets Heasy Htess. unfold Bilingual.process_document.
    rewrite Himg, Hname.
    unfold bind at 1. unfold os_makedirs at 1. rewrite Hd.
    unfold bind at 1. unfold save at 1. rewrite Hs. fold p.
    unfold bind at 1. unfold readtext, invoke. cbn [fs calls]. fold p.
    rewrite lookup_insert_eq, Heasy.
    unfold bind at 1. rewrite bilingual_ocr_with_tesseract. cbn [fs calls].
    fold p. unfold tess in Htess. rewrite lookup_insert_eq, Htess.
    unfold after_saved. by rewrite <- app_assoc.
  - intros names. apply lookup_insert_eq.
Qed.

(** X24: in the bilingual handler, too, nothing catches what
    [os.makedirs] or [image_file.save] raises: it leaves the handler as it
    was raised, before any engine is invoked.  When it is [os.makedirs]
    that raises, nothing is written; when it is [save], the file holds
    what the broken-off writing left there. *)
Theorem process_document_save_error_escapes
    (request : Request) (f : FileStorage) (w : World) (e : exn)
    (remains : option bytes) :
  files_image request = Some f ->
  truthy (filename f) = true ->
  let file := realpath (disk E) (os_path_join (py "uploads") (filename f)) in
  (makedirs_error (disk E) (py "uploads") = Some e ->
   Bilingual.process_document E request w = (inl e, w))
  /\ (makedirs_error (disk E) (py "uploads") = None ->
      save_error (disk E) (os_path_join (py "uploads") (filename f)) (stream f)
      = Some (e, remains) ->
      Bilingual.process_document E request w
      = (inl e, broken_off file remains w)
      /\ calls (broken_off file remains w) = calls w).
Proof.
  intros Himg Hname file. split.
  - intros Hd. unfold Bilingual.process_document. rewrite Himg, Hname.
    unfold bind at 1. unfold os_makedirs at 1. by rewrite Hd.
  - intros Hd Hs. split; [|by destruct remains].
    unfold Bilingual.process_document. rewrite Himg, Hname.
    unfold bind at 1. unfold os_makedirs at 1. rewrite Hd.
    unfold bind at 1. unfold save at 1. by rewrite Hs.
Qed.

End bilingual_process.

(** A request with a text and no image. *)
Lemma process_document_requires_image_witness :
  file_truthy (files_image (text_request (py "ACME Ltd"))) = false
  /\ Bilingual.process_document engines_others_fail
       (text_request (py "ACME Ltd")) empty_world
     = (inr {| status := 400; json := JError (py "Image is required") |},
        empty_world).
Proof.
  assert (file_truthy (files_image (text_request (py "ACME Ltd"))) = false)
    as H by reflexivity.
  split; [exact H|].
  exact (process_document_requires_image engines_others_fail
           (text_request (py "ACME Ltd")) empty_world H).
Defined.


(** Tesseract raising on [Card.PNG] after EasyOCR has read it. *)
Lemma process_document_engine_error_witness :
  files_image card_request = Some card_png
  /\ truthy (filename card_png) = true
  /\ makedirs_error (disk engines_others_fail) (py "uploads") = None
  /\ save_error (disk engines_others_fail)
       (os_path_join (py "uploads") (filename card_png)) (stream card_png)
     = None
  /\ Bilingual.process_document engines_others_fail card_request empty_world
     = (inl corrupt_image,
        after_saved
          (realpath (disk engines_others_fail)
             (os_path_join (py "uploads") (filename card_png)))
          (stream card_png) [py "easyocr"; py "tesseract"] empty_world).
Proof.
  assert (files_image card_request = Some card_png) as H1 by reflexivity.
  assert (truthy (filename card_png) = true) as H2 by reflexivity.
  assert (makedirs_error (disk engines_others_fail) (py "uploads") = None)
    as Hd by reflexivity.
  assert (save_error (disk engines_others_fail)
            (os_path_join (py "uploads") (filename card_png))
            (stream card_png) = None) as Hs by reflexivity.
  split; [exact H1|]. split; [exact H2|]. split; [exact Hd|].
  split; [exact Hs|].
  exact (proj1 (proj2 (process_document_engine_error engines_others_fail
                         card_request card_png empty_world corrupt_image
                         H1 H2 Hd Hs))
           _ eq_refl eq_refl).
Defined.

(** [sub/x.png] uploaded to a disk without the directory
    [uploads/sub]. *)
Lemma process_document_save_error_escapes_witness :
  files_image {| form_text := None; files_image := Some sub_x_png |}
  = Some sub_x_png
  /\ truthy (filename sub_x_png) = true
  /\ makedirs_error (disk engines_without_sub) (py "uploads") = None
  /\ save_error (disk engines_without_sub)
       (os_path_join (py "uploads") (filename sub_x_png)) (stream sub_x_png)
     = Some (FileNotFoundError (py "uploads/sub/x.png"), None)
  /\ Bilingual.process_document engines_without_sub
       {| form_text := None; files_image := Some sub_x_png |} empty_world
     = (inl (FileNotFoundError (py "uploads/sub/x.png")),
        broken_off
          (realpath (disk engines_without_sub)
             (os_path_join (py "uploads") (filename sub_x_png)))
          None empty_world).
Proof.
  assert (files_image {| form_text := None; files_image := Some sub_x_png |}
          = Some sub_x_png) as H1 by reflexivity.
  assert (truthy (filename sub_x_png) = true) as H2 by reflexivity.
  assert (makedirs_error (disk engines_without_sub) (py "uploads") = None)
    as H3 by reflexivity.
  assert (save_error (disk engines_without_sub)
            (os_path_join (py "uploads") (filename sub_x_png))
            (stream sub_x_png)
          = Some (FileNotFoundError (py "uploads/sub/x.png"), None))
    as H4 by reflexivity.
  split; [exact H1|]. split; [exact H2|]. split; [exact H3|].
  split; [exact H4|].
  exact (proj1 (proj2 (process_document_save_error_escapes
                         engines_without_sub _ sub_x_png empty_world _ _
                         H1 H2) H3 H4)).
Defined.

(** The answer to the text "Dhaka 1212". *)
Lemma ok_response_numbers_ascii_witness :
  Base.process_visiting_card engines_easy_fails ascii_db
    (text_request (py "Dhaka 1212")) empty_world
  = (inr (card_response ascii_db [] (py "Dhaka 1212")), empty_world)
  /\ status (card_response ascii_db [] (py "Dhaka 1212")) = 200
  /\ exists ocr_results combined extracted,
       json (card_response ascii_db [] (py "Dhaka 1212"))
       = JCard ocr_results combined extracted
       /\ Forall (fun n => n <> [] /\ Forall (fun c => is_digit c = true) n)
                 (numbers extracted).
Proof.
  assert (Base.process_visiting_card engines_easy_fails ascii_db
            (text_request (py "Dhaka 1212")) empty_world
          = (inr (card_response ascii_db [] (py "Dhaka 1212")), empty_world))
    as H1 by (vm_compute; reflexivity).
  assert (status (card_response ascii_db [] (py "Dhaka 1212")) = 200)
    as H2 by reflexivity.
  split; [exact H1|]. split; [exact H2|].
  exact (ok_response_numbers_ascii engines_easy_fails ascii_db _ _ _ _ H1 H2).
Defined.
